(** * Descriptor-based ML notebook: the data pipeline

    A shallow embedding of [0_ml-using-chemical-descriptors.ipynb].  The
    notebook is glue code: each cell calls pandas, RDKit, Mordred, numpy or
    scikit-learn.  The cells are embedded as written.  The library routines
    they call are embedded from their documented behaviour; the ones whose
    result is a black box here (structure parsing, descriptor values, the
    string-to-number parser, the square root, the SVD and the LASSO solver)
    are parameters, and so is the random generator, for which numpy's own
    is given as an instance.

    A number held in a frame or an array is written as a rational.  The
    standard deviations that the cleaning cells compare with zero are
    computed in double precision, as pandas does; the estimators of
    scikit-learn and the metrics are computed over the rationals, without
    rounding. *)

From Stdlib Require Import Ascii String QArith ZArith Lia Bool PeanoNat List.
From Stdlib Require Import Permutation Qround Qabs Lqa.
From Stdlib Require DecimalString Floats Uint63.
Import ListNotations.

Set Implicit Arguments.

(** ** Rational sums *)

Definition Qsum (xs : list Q) : Q := fold_right Qplus 0%Q xs.

Definition Qof_nat (n : nat) : Q := inject_Z (Z.of_nat n).

Definition Qsq (x : Q) : Q := (x * x)%Q.

(** ** pandas: cells, Series, DataFrame *)

(** One value held in a DataFrame cell. *)
Inductive cell : Type :=
| Num (x : Q)        (* a finite int, float or bool *)
| NaN                (* missing *)
| Str (s : string)   (* a Python str *)
| Err.               (* any other object, e.g. Mordred's Missing / Error *)

Definition Series := list cell.

(** Columns in order, each a label and its values; [index] holds the row
    labels, so a frame keeps its rows even with no column left. *)
Record DataFrame : Type := mkDataFrame {
  index : list Z;
  columns : list (string * Series)
}.

Definition len (df : DataFrame) : nat := length (index df).

Definition isnull (c : cell) : bool :=
  match c with NaN => true | _ => false end.

Definition is_number (c : cell) : bool :=
  match c with Num _ | NaN => true | _ => false end.

(** A column the numeric reductions can work on. *)
Definition numeric (s : Series) : bool := forallb is_number s.

(** The non-missing numbers of a column ([skipna=True]). *)
Fixpoint dropna (s : Series) : list Q :=
  match s with
  | [] => []
  | Num x :: s' => x :: dropna s'
  | _ :: s' => dropna s'
  end.

(** *** Double precision

    pandas reduces a numeric column as an array of [float64].  The
    operations are the primitive binary64 ones: each rounds to the nearest
    double, ties to even. *)
Definition float64 : Type := PrimFloat.float.

(** [num / den] rounded to the nearest integer, ties to even, for
    [0 <= num] and [0 < den]. *)
Definition round_half_even (num den : Z) : Z :=
  let q := (num / den)%Z in
  match (2 * (num mod den) ?= den)%Z with
  | Lt => q
  | Gt => (q + 1)%Z
  | Eq => if Z.even q then q else (q + 1)%Z
  end.

(** The exponent [e] with [2 ^ e <= num / den < 2 ^ (e + 1)], for
    [0 < num] and [0 < den]. *)
Definition log2_floor (num den : Z) : Z :=
  let e := (Z.log2 num - Z.log2 den)%Z in
  if (0 <=? e)%Z
  then (if (den * 2 ^ e <=? num)%Z then e else e - 1)%Z
  else (if (den <=? num * 2 ^ (- e))%Z then e else e - 1)%Z.

(** [values.astype('f8')] on one number: the double nearest to it (53
    bits of precision, subnormal below [2 ^ -1022], infinite from
    [2 ^ 1024] on).  An integer beyond [2 ^ 53] is rounded; a float
    written in decimal is the double that the decimal denotes. *)
Definition astype_f8 (x : Q) : float64 :=
  let num := Z.abs (Qnum x) in
  let den := Zpos (Qden x) in
  if (num =? 0)%Z then PrimFloat.zero
  else
    let u := Z.max (log2_floor num den - 52) (-1074) in
    let m := if (0 <=? u)%Z then round_half_even num (den * 2 ^ u)
             else round_half_even (num * 2 ^ (- u)) den in
    let f := FloatOps.Z.ldexp (PrimFloat.of_uint63 (Uint63.of_Z m)) u in
    if (Qnum x <? 0)%Z then PrimFloat.opp f else f.

(** [a.sum(dtype=np.float64)], the terms added from left to right.  This
    is the order numpy follows along a strided axis and for fewer than
    eight terms; along a contiguous axis of eight terms or more it adds
    them pairwise. *)
Definition float64_sum (xs : list float64) : float64 :=
  fold_left PrimFloat.add xs PrimFloat.zero.

(** [s == 0] on a reduction result: false for NaN. *)
Definition eq_zero (s : float64) : bool := PrimFloat.eqb s PrimFloat.zero.

(** [nanops.nanvar]: two-pass variance in double precision, NaN when
    there are no more than [ddof] non-missing values.  The column is cast
    to [float64] and a missing value counts as 0 in both sums. *)
Definition nanvar (ddof : nat) (s : Series) : float64 :=
  let count := length (dropna s) in
  if (count <=? ddof)%nat then PrimFloat.nan
  else
    let avg :=
      PrimFloat.div
        (float64_sum (map (fun c => match c with
                                    | Num x => astype_f8 x
                                    | _ => PrimFloat.zero
                                    end) s))
        (astype_f8 (Qof_nat count)) in
    let sqr (c : cell) :=
      match c with
      | Num x => let d := PrimFloat.sub avg (astype_f8 x) in PrimFloat.mul d d
      | _ => PrimFloat.zero
      end in
    PrimFloat.div (float64_sum (map sqr s))
                  (astype_f8 (Qof_nat (count - ddof))).

(** [nanops.nanstd]: [np.sqrt] of the variance. *)
Definition nanstd (ddof : nat) (s : Series) : float64 :=
  PrimFloat.sqrt (nanvar ddof s).

(** [DataFrame.std()] with the defaults [ddof=1], [skipna=True],
    [numeric_only=None]: a column that holds anything but numbers is a
    nuisance column and is left out of the result. *)
Definition std (df : DataFrame) : list (string * float64) :=
  flat_map (fun '(c, s) => if numeric s then [(c, nanstd 1 s)] else [])
           (columns df).

Definition mem (c : string) (cs : list string) : bool :=
  existsb (String.eqb c) cs.

(** [df.drop(columns=labels)]: every column carrying one of the labels goes. *)
Definition drop (labels : list string) (df : DataFrame) : DataFrame :=
  {| index := index df;
     columns := filter (fun '(c, _) => negb (mem c labels)) (columns df) |}.

Section ToNumeric.

(** pandas' parser of a string as a number, [None] when it does not
    parse. *)
Variable parse_float : string -> option Q.

(** [pd.to_numeric(_, errors='coerce')] on one value. *)
Definition coerce (c : cell) : cell :=
  match c with
  | Num x => Num x
  | NaN => NaN
  | Str s => match parse_float s with Some x => Num x | None => NaN end
  | Err => NaN
  end.

Definition to_numeric (s : Series) : Series := map coerce s.

End ToNumeric.

(** [desc.isnull().any()]: per column, whether some row is missing. *)
Definition isnull_any (df : DataFrame) : list (string * bool) :=
  map (fun '(c, s) => (c, existsb isnull s)) (columns df).

(** [desc.loc[:, ~mask]] for a mask computed from the same frame. *)
Definition loc_not (mask : list (string * bool)) (df : DataFrame) : DataFrame :=
  {| index := index df;
     columns := map fst (filter (fun '(_, (_, m)) => negb m)
                                (combine (columns df) mask)) |}.

(** ** The feature cleaner (cells "Preprocessing") *)

Section Cleaner.

Variable parse_float : string -> option Q.

(** [zero_variation = [c for c, s in desc.std().items() if s == 0]] *)
Definition zero_variation (desc : DataFrame) : list string :=
  map fst (filter (fun '(_, s) => eq_zero s) (std desc)).

(** [desc.drop(columns=zero_variation, inplace=True)] *)
Definition drop_zero_variation (desc : DataFrame) : DataFrame :=
  drop (zero_variation desc) desc.

(** [for c in desc.columns: desc[c] = pd.to_numeric(desc[c], errors='coerce')] *)
Definition convert_to_numbers (desc : DataFrame) : DataFrame :=
  {| index := index desc;
     columns := map (fun '(c, s) => (c, to_numeric parse_float s)) (columns desc) |}.

(** [missing_values = desc.isnull().any(); desc = desc.loc[:, ~missing_values]] *)
Definition drop_missing (desc : DataFrame) : DataFrame :=
  loc_not (isnull_any desc) desc.

Definition clean (desc : DataFrame) : DataFrame :=
  drop_missing (convert_to_numbers (drop_zero_variation desc)).

End Cleaner.

(** ** numpy: arrays, the square root, the global random generator *)

(** A two-dimensional array of shape [(n_samples, n_features)], held by
    feature: [features] lists the columns. *)
Record ndarray : Type := mkArray {
  n_samples : nat;
  features : list (list Q)
}.

Definition n_features (X : ndarray) : nat := length (features X).

(** What the notebook takes from numpy without saying how it is computed:
    [np.sqrt], and the legacy global [RandomState] behind [np.random],
    which [np.random.seed] resets and every [permutation] advances. *)
Class Numpy : Type := {
  sqrt : Q -> Q;
  RandomState : Type;
  seed : Z -> RandomState;
  permutation : nat -> RandomState -> list nat * RandomState;
  permutation_spec :
    forall n g, Permutation (fst (permutation n g)) (seq 0 n)
}.

(** ** Computations that read and advance [np.random], or raise *)

Section Monad.

Context {np : Numpy}.

Definition M (A : Type) : Type := RandomState -> option (A * RandomState).

Definition ret {A} (a : A) : M A := fun g => Some (a, g).

Definition bind {A B} (m : M A) (k : A -> M B) : M B :=
  fun g => match m g with
           | Some (a, g') => k a g'
           | None => None
           end.

(** An exception that nothing catches. *)
Definition raise {A} : M A := fun _ => None.

Definition lift {A} (o : option A) : M A :=
  match o with
  | Some a => ret a
  | None => raise
  end.

(** [np.random.seed(s)]: the seed must fit 32 bits. *)
Definition np_random_seed (s : Z) : M unit :=
  if ((0 <=? s) && (s <? 2 ^ 32))%Z then fun _ => Some (tt, seed s)
  else raise.

(** [np.random.permutation(n)] on the global generator. *)
Definition np_random_permutation (n : nat) : M (list nat) :=
  fun g => Some (permutation n g).

End Monad.

Declare Scope np_scope.
Delimit Scope np_scope with np.
Notation "x <- m ;; k" := (bind m (fun x => k))
  (at level 61, m at next level, right associativity) : np_scope.
Notation "' p <- m ;; k" := (bind m (fun p => k))
  (at level 61, p pattern, m at next level, right associativity) : np_scope.
Notation "m ;; k" := (bind m (fun _ => k))
  (at level 61, right associativity) : np_scope.

(** ** Positional indexing *)

(** [a.take(idx)] / [a.iloc[idx]]: an index out of range raises. *)
Fixpoint take {A} (idx : list nat) (a : list A) : option (list A) :=
  match idx with
  | [] => Some []
  | i :: idx' =>
      match nth_error a i, take idx' a with
      | Some x, Some xs => Some (x :: xs)
      | _, _ => None
      end
  end.

Fixpoint take_columns (idx : list nat) (cols : list (string * Series))
  : option (list (string * Series)) :=
  match cols with
  | [] => Some []
  | (c, s) :: cols' =>
      match take idx s, take_columns idx cols' with
      | Some s', Some cols'' => Some ((c, s') :: cols'')
      | _, _ => None
      end
  end.

Definition iloc (idx : list nat) (df : DataFrame) : option DataFrame :=
  match take idx (index df), take_columns idx (columns df) with
  | Some ix, Some cols => Some {| index := ix; columns := cols |}
  | _, _ => None
  end.

(** The values of row [i], one per column. *)
Definition row (df : DataFrame) (i : nat) : option (list cell) :=
  if (i <? len df)%nat
  then Some (map (fun '(_, s) => nth i s NaN) (columns df))
  else None.

(** ** The dataset *)

(** One line of [qm9.json.gz], as far as the notebook reads it. *)
Record MoleculeRecord : Type := mkRecord {
  label : Z;
  smiles_0 : string;
  bandgap : Q
}.

Section Sampling.

Context {np : Numpy}.
Local Open Scope np_scope.

(** [DataFrame.sample(n)] with [replace=False] and no [random_state]:
    the first [n] entries of a permutation drawn from [np.random]. *)
Definition sample {A} (n : nat) (population : list A) : M (list A) :=
  if (length population <? n)%nat then raise
  else
    locs <- np_random_permutation (length population) ;;
    lift (take (firstn n locs) population).

End Sampling.

(** ** RDKit and Mordred *)

Class RDKit : Type := {
  Mol : Type;
  (** [None] is what RDKit returns for a string it cannot parse. *)
  MolFromSmiles : string -> option Mol
}.

Class Mordred {rdkit : RDKit} : Type := {
  (** The names of [calc.descriptors]. *)
  descriptors : list string;
  (** One descriptor on one molecule.  A descriptor that fails does not
      raise: Mordred stores a [Missing] or [Error] object in its cell. *)
  calculate : string -> Mol -> cell
}.

Fixpoint traverse {A B} (f : A -> option B) (l : list A) : option (list B) :=
  match l with
  | [] => Some []
  | a :: l' =>
      match f a, traverse f l' with
      | Some b, Some bs => Some (b :: bs)
      | _, _ => None
      end
  end.

Section Descriptors.

Context {rdkit : RDKit} {mordred : Mordred}.

(** A Series of parse results: row label and molecular graph, [None] for
    a null graph. *)
Definition MolSeries : Type := list (Z * option Mol).

(** [data['smiles_0'].apply(Chem.MolFromSmiles)] *)
Definition parse_molecules (data : list MoleculeRecord) : MolSeries :=
  map (fun r => (label r, MolFromSmiles (smiles_0 r))) data.

(** [Context.from_query], which Mordred calls on each entry before any
    descriptor: anything but a molecule raises [TypeError]. *)
Definition from_query (m : option Mol) : option Mol := m.

(** [calc.pandas(mols, nproc=1)]: one row per entry of [mols] under the
    index of [mols], one column per descriptor. *)
Definition calc_pandas (mols : MolSeries) : option DataFrame :=
  match traverse from_query (map snd mols) with
  | Some ms =>
      Some {| index := map fst mols;
              columns := map (fun d => (d, map (calculate d) ms))
                             descriptors |}
  | None => None
  end.

End Descriptors.

(** ** scikit-learn *)

(** [check_array] on a DataFrame: at least one sample and one feature, and
    every cell a number; anything else raises.  (A missing value is let
    through by the scaler and refused by the PCA after it; no cleaned frame
    holds one, so the two are not told apart.) *)
Definition as_float (c : cell) : option Q :=
  match c with Num x => Some x | _ => None end.

Definition check_array (df : DataFrame) : option ndarray :=
  if ((len df =? 0) || (length (columns df) =? 0))%nat then None
  else
    match traverse (fun '(_, s) => traverse as_float s) (columns df) with
    | Some cols => Some {| n_samples := len df; features := cols |}
    | None => None
    end.

(** In the estimators every result is put in lowest terms ([Qred]), which
    keeps the fractions small and does not change their value. *)
Definition mean (xs : list Q) : Q :=
  Qred (Qsum xs / Qof_nat (length xs)).

(** Population variance, as [StandardScaler] computes it ([ddof=0]). *)
Definition variance (xs : list Q) : Q :=
  let m := mean xs in
  Qred (Qsum (map (fun x => Qsq (x - m)) xs) / Qof_nat (length xs)).

(** [_handle_zeros_in_scale]: a scale of zero is replaced by one.  (From
    scikit-learn 1.0 on, so is the scale of a feature whose variance is
    within rounding error of zero.) *)
Definition handle_zeros_in_scale (s : Q) : Q :=
  if Qeq_bool s 0 then 1%Q else s.

(** The fitted attributes of a [StandardScaler]. *)
Record StandardScaler : Type := mkScaler {
  mean_ : list Q;
  var_ : list Q;
  scale_ : list Q
}.

(** The fitted attributes of a [PCA], with its [n_components] parameter. *)
Record PCA : Type := mkPCA {
  n_components : nat;
  pca_mean_ : list Q;
  components_ : list (list Q)   (* one row of loadings per component *)
}.

(** The fitted attributes of a [LassoCV]. *)
Record LassoCV : Type := mkLasso {
  alpha_ : Q;
  coef_ : list Q;
  intercept_ : Q
}.

(** The numerical solvers: the singular value decomposition behind
    [PCA.fit] (with [svd_solver='auto'] it may be the randomized one, which
    draws from [np.random]) and the cross-validated coordinate descent
    behind [LassoCV.fit] (no [random_state]: every descent seeds itself
    from [np.random]). *)
Class Sklearn {np : Numpy} : Type := {
  svd : nat -> ndarray -> RandomState -> list (list Q) * RandomState;
  lasso_path : ndarray -> list Q -> RandomState -> LassoCV * RandomState
}.

(** [LassoCV()] cross-validates over five folds. *)
Definition n_splits : nat := 5.

Section Estimators.

Context {np : Numpy} {sk : Sklearn}.
Local Open Scope np_scope.

(** [StandardScaler().fit(X)] *)
Definition scaler_fit (X : ndarray) : StandardScaler :=
  let var := map variance (features X) in
  {| mean_ := map mean (features X);
     var_ := var;
     scale_ := map (fun v => handle_zeros_in_scale (sqrt v)) var |}.

Definition scale_column (col : list Q) (m s : Q) : list Q :=
  map (fun x => Qred ((x - m) / s)) col.

Fixpoint scale_columns (cols : list (list Q)) (ms ss : list Q)
  : list (list Q) :=
  match cols, ms, ss with
  | col :: cols', m :: ms', s :: ss' =>
      scale_column col m s :: scale_columns cols' ms' ss'
  | _, _, _ => []
  end.

(** [scaler.transform(X)]: [(value - mean) / scale] per cell.  The
    scaler is handed back next to the result, so that what a call does to
    its attributes is part of the model. *)
Definition scaler_transform (sc : StandardScaler) (X : ndarray)
  : option (ndarray * StandardScaler) :=
  if (n_features X =? length (mean_ sc))%nat
  then Some ({| n_samples := n_samples X;
                features := scale_columns (features X) (mean_ sc) (scale_ sc) |},
             sc)
  else None.

(** [StandardScaler().fit_transform(X)] *)
Definition scaler_fit_transform (X : ndarray)
  : option (ndarray * StandardScaler) :=
  scaler_transform (scaler_fit X) X.

(** Entry [i] of the product of the centred rows with one row of
    loadings. *)
Definition project (X : ndarray) (mu loadings : list Q) (i : nat) : Q :=
  Qred (Qsum (map (fun '(col, (m, w)) => ((nth i col 0 - m) * w)%Q)
                  (combine (features X) (combine mu loadings)))).

(** [pca.transform(X)] *)
Definition pca_transform (p : PCA) (X : ndarray) : option ndarray :=
  if (n_features X =? length (pca_mean_ p))%nat
  then Some {| n_samples := n_samples X;
               features := map (fun loadings =>
                                  map (project X (pca_mean_ p) loadings)
                                      (seq 0 (n_samples X)))
                               (components_ p) |}
  else None.

(** [PCA(n_components=k).fit(X)] *)
Definition pca_fit (k : nat) (X : ndarray) : M PCA :=
  if (Nat.min (n_samples X) (n_features X) <? k)%nat then raise
  else
    fun g =>
      let (V, g') := svd k X g in
      Some ({| n_components := k;
               pca_mean_ := map mean (features X);
               components_ := firstn k V |}, g').

Definition pca_fit_transform (k : nat) (X : ndarray) : M (ndarray * PCA) :=
  p <- pca_fit k X ;;
  Xt <- lift (pca_transform p X) ;;
  ret (Xt, p).

(** [LassoCV().fit(X, y)]: [KFold] refuses fewer samples than folds. *)
Definition lasso_fit (X : ndarray) (y : list Q) : M LassoCV :=
  if negb (n_samples X =? length y)%nat then raise
  else if (n_samples X <? n_splits)%nat then raise
  else fun g => Some (lasso_path X y g).

(** [lasso.predict(X)]: the linear combination plus the intercept. *)
Definition lasso_predict (l : LassoCV) (X : ndarray) : option (list Q) :=
  if (n_features X =? length (coef_ l))%nat
  then Some (map (fun i =>
                    Qred (Qsum (map (fun '(col, w) => (nth i col 0 * w)%Q)
                                    (combine (features X) (coef_ l)))
                          + intercept_ l))
                 (seq 0 (n_samples X)))
  else None.

(** *** [train_test_split(data, desc, test_size=t)] *)

(** [_validate_shuffle_split] for a float [test_size] and no
    [train_size].  The product is exact here; scikit-learn takes the
    ceiling of the product rounded to a double, which is the same for the
    fractions used below. *)
Definition validate_shuffle_split (n : nat) (test_size : Q)
  : option (nat * nat) :=
  if Qle_bool test_size 0 || Qle_bool 1 test_size then None
  else
    let n_test := Z.to_nat (Qceiling (test_size * Qof_nat n)) in
    let n_train := (n - n_test)%nat in
    if (n_train =? 0)%nat then None else Some (n_train, n_test).

(** No [random_state]: the shuffle draws from [np.random].  Returns
    [train_data, test_data, train_desc, test_desc]. *)
Definition train_test_split {A} (data : list A) (desc : DataFrame)
  (test_size : Q) : M (list A * list A * DataFrame * DataFrame) :=
  if negb (length data =? len desc)%nat then raise
  else
    ' (n_train, n_test) <- lift (validate_shuffle_split (length data) test_size) ;;
    perm <- np_random_permutation (length data) ;;
    let ind_test := firstn n_test perm in
    let ind_train := firstn n_train (skipn n_test perm) in
    train_data <- lift (take ind_train data) ;;
    test_data <- lift (take ind_test data) ;;
    train_desc <- lift (iloc ind_train desc) ;;
    test_desc <- lift (iloc ind_test desc) ;;
    ret (train_data, test_data, train_desc, test_desc).

(** *** [Pipeline([('scale', ...), ('pca', ...), ('lasso', ...)])] *)

Record Pipeline : Type := mkPipeline {
  pca__n_components : nat;
  steps : option (StandardScaler * PCA * LassoCV)   (* [None] until fitted *)
}.

Definition set_params (k : nat) (model : Pipeline) : Pipeline :=
  {| pca__n_components := k; steps := steps model |}.

(** [model.fit(X, y)] *)
Definition pipeline_fit (model : Pipeline) (X : DataFrame) (y : list Q)
  : M Pipeline :=
  X0 <- lift (check_array X) ;;
  ' (X1, scale) <- lift (scaler_fit_transform X0) ;;
  ' (X2, pca) <- pca_fit_transform (pca__n_components model) X1 ;;
  lasso <- lasso_fit X2 y ;;
  ret {| pca__n_components := pca__n_components model;
         steps := Some (scale, pca, lasso) |}.

(** [model.predict(X)]; the model comes back with the prediction. *)
Definition pipeline_predict (model : Pipeline) (X : DataFrame)
  : option (list Q * Pipeline) :=
  match steps model, check_array X with
  | Some (scale, pca, lasso), Some X0 =>
      match scaler_transform scale X0 with
      | Some (X1, scale') =>
          match pca_transform pca X1 with
          | Some X2 =>
              match lasso_predict lasso X2 with
              | Some y =>
                  Some (y, {| pca__n_components := pca__n_components model;
                              steps := Some (scale', pca, lasso) |})
              | None => None
              end
          | None => None
          end
      | None => None
      end
  | _, _ => None
  end.

End Estimators.

(** *** [sklearn.metrics] *)

(** A Python float: a number or NaN. *)
Inductive pyfloat : Type :=
| Finite (x : Q)
| FNaN.

(** [r2_score(y_true, y_pred)]: the first argument is the reference, the
    second the estimate.  [None] when the lengths differ or there is no
    sample. *)
Definition r2_score (y_true y_pred : list Q) : option pyfloat :=
  if negb (length y_true =? length y_pred)%nat then None
  else if (length y_true =? 0)%nat then None
  else if (length y_pred <? 2)%nat then Some FNaN
  else
    let numerator :=
      Qsum (map (fun '(t, p) => Qsq (t - p)) (combine y_true y_pred)) in
    let denominator :=
      Qsum (map (fun t => Qsq (t - mean y_true)) y_true) in
    if negb (Qeq_bool denominator 0)
    then Some (Finite (1 - numerator / denominator))
    else if negb (Qeq_bool numerator 0) then Some (Finite 0)
    else Some (Finite 1).

(** A float with its fraction in lowest terms. *)
Definition reduced (f : pyfloat) : pyfloat :=
  match f with
  | Finite x => Finite (Qred x)
  | FNaN => FNaN
  end.

(** [mean_absolute_error(y_true, y_pred)] *)
Definition mean_absolute_error (y_true y_pred : list Q) : option pyfloat :=
  if negb (length y_true =? length y_pred)%nat then None
  else if (length y_true =? 0)%nat then None
  else Some (Finite (Qsum (map (fun '(t, p) => Qabs (t - p))
                               (combine y_true y_pred))
                     / Qof_nat (length y_true))).

(** ** The notebook, cell by cell *)

Class Pandas : Type := {
  (** The parser [pd.to_numeric] applies to a string. *)
  parse_float : string -> option Q
}.

(** The held-out frame with the two prediction columns added to it. *)
Record TestData : Type := mkTestData {
  test_rows : list MoleculeRecord;
  ncomp16_model : list Q;   (* test_data['16-ncomp-model'] *)
  ncomp8_model : list Q     (* test_data['8-ncomp-model'] *)
}.

(** The last code cell: one score per panel,
    [r2 = r2_score(test_data[col], test_data['bandgap'])]. *)
Definition compare_models (test_data : TestData)
  : option (list (string * pyfloat)) :=
  match r2_score (ncomp8_model test_data) (map bandgap (test_rows test_data)),
        r2_score (ncomp16_model test_data) (map bandgap (test_rows test_data))
  with
  | Some r8, Some r16 => Some [("8-ncomp-model"%string, r8);
                               ("16-ncomp-model"%string, r16)]
  | _, _ => None
  end.

Section Notebook.

Context {pd : Pandas} {np : Numpy} {sk : Sklearn}.
Context {rdkit : RDKit} {mordred : Mordred}.
Local Open Scope np_scope.

(** The names the cells bind, as they stand when the last cell is done. *)
Record Globals : Type := mkGlobals {
  data : list MoleculeRecord;
  data_mol : MolSeries;                (* data['mol'] *)
  computed : DataFrame;                (* desc as calc.pandas returned it *)
  desc : DataFrame;                    (* desc after the cleaning cells *)
  scaler : StandardScaler;
  feats : ndarray;
  pca : PCA;
  pca_feats : ndarray;
  lasso : LassoCV;
  train_data : list MoleculeRecord;
  train_desc : DataFrame;
  test_desc : DataFrame;
  model_16 : Pipeline;                 (* model after the first fit and predict *)
  model : Pipeline;                    (* model after the second fit and predict *)
  test_data : TestData;
  r2 : list (string * pyfloat)
}.

(** The cells in order, with the literals of the source as arguments: the
    seed, the sample size, the two component counts and the held-out
    fraction.  The two [np.corrcoef] cells and the plots only display. *)
Definition cells (seed_value : Z) (n_sample k k' : nat) (test_size : Q)
  (qm9 : list MoleculeRecord) : M Globals :=
  np_random_seed seed_value ;;
  data <- sample n_sample qm9 ;;
  let data_mol := parse_molecules data in
  computed <- lift (calc_pandas data_mol) ;;
  let desc := clean parse_float computed in
  X <- lift (check_array desc) ;;
  ' (feats, scaler) <- lift (scaler_fit_transform X) ;;
  ' (pca_feats, pca) <- pca_fit_transform k feats ;;
  lasso <- lasso_fit pca_feats (map bandgap data) ;;
  ' (train_data, test_rows, train_desc, test_desc) <-
      train_test_split data desc test_size ;;
  let model := {| pca__n_components := k; steps := None |} in
  model <- pipeline_fit model train_desc (map bandgap train_data) ;;
  ' (y16, model_16) <- lift (pipeline_predict model test_desc) ;;
  let model := set_params k' model_16 in
  model <- pipeline_fit model train_desc (map bandgap train_data) ;;
  ' (y8, model) <- lift (pipeline_predict model test_desc) ;;
  let test_data := {| test_rows := test_rows;
                      ncomp16_model := y16;
                      ncomp8_model := y8 |} in
  r2 <- lift (compare_models test_data) ;;
  ret {| data := data; data_mol := data_mol; computed := computed;
         desc := desc; scaler := scaler; feats := feats; pca := pca;
         pca_feats := pca_feats; lasso := lasso;
         train_data := train_data; train_desc := train_desc;
         test_desc := test_desc; model_16 := model_16; model := model;
         test_data := test_data; r2 := r2 |}.

(** [np.random.seed(128)], [.sample(1024)], [n_components] 16 then 8,
    [test_size=0.1]. *)
Definition notebook : list MoleculeRecord -> M Globals :=
  cells 128 1024 16 8 (1 # 10).

End Notebook.

(** ** What the cells display *)

(** [desc.shape] *)
Definition shape (df : DataFrame) : nat * nat :=
  (len df, length (columns df)).

(** [a / b] on two Python ints: a float, or [ZeroDivisionError]. *)
Definition true_divide (a b : nat) : option Q :=
  if (b =? 0)%nat then None else Some (Qof_nat a / Qof_nat b)%Q.

(** The three values the cell after [zero_variation] prints:
    [len(zero_variation)],
    [len(zero_variation) / len(desc.columns) * 100] and
    [zero_variation[:5]]. *)
Definition constant_features (desc : DataFrame)
  : option (nat * Q * list string) :=
  match true_divide (length (zero_variation desc)) (length (columns desc)) with
  | Some share => Some (length (zero_variation desc), (share * 100)%Q,
                        firstn 5 (zero_variation desc))
  | None => None
  end.

(** [missing_values.sum()]: [True] counts for one. *)
Definition mask_sum (mask : list (string * bool)) : nat :=
  list_sum (map (fun cb : string * bool => if snd cb then 1 else 0)%nat mask).


(** ** numpy's legacy generator

    [np.random] is a [RandomState] over the Mersenne Twister MT19937.
    [mt19937_seed], [mt19937_gen] and [mt19937_next] follow numpy's
    [mt19937.c]; [random_interval] and the shuffle behind [permutation]
    follow [legacy-distributions.c] and [mtrand.pyx].  The rejection loop
    of [random_interval] is cut after 64 draws. *)

Module Mtrand.

Local Open Scope Z_scope.

Definition u32 (z : Z) : Z := Z.land z 0xffffffff.

(** The 624 words of the key, by Knuth's recurrence. *)
Fixpoint init_key (n : nat) (pos : Z) (s : Z) : list Z :=
  match n with
  | O => []
  | S n' => s :: init_key n' (pos + 1)
              (u32 (1812433253 * (Z.lxor s (Z.shiftr s 30)) + pos + 1))
  end.

Record mt19937_state : Type := mkState {
  key : list Z;
  pos : nat
}.

(** [mt19937_seed]: what [np.random.seed(s)] does for an integer [s]. *)
Definition mt19937_seed (s : Z) : mt19937_state :=
  {| key := init_key 624 0 (u32 s); pos := 624 |}.

(** One word of the next key: the top bit of [a], the low bits of [b],
    shifted and folded into [src]. *)
Definition mix (a b src : Z) : Z :=
  let y := Z.lor (Z.land a 0x80000000) (Z.land b 0x7fffffff) in
  Z.lxor (Z.lxor src (Z.shiftr y 1)) (if Z.odd y then 0x9908b0df else 0).

Fixpoint mix_words (a b src : list Z) : list Z :=
  match a, b, src with
  | x :: a', y :: b', z :: src' => mix x y z :: mix_words a' b' src'
  | _, _, _ => []
  end.

(** [mt19937_gen]: the next key.  The C loop updates the key in place, so
    word [i] reads word [i + 397] of the old key while there is one (words
    0 to 226) and word [i - 227] of the new key after that (words 227 to
    453, then 454 to 622); the last word closes the circle. *)
Definition mt19937_gen (old : list Z) : list Z :=
  let n1 := mix_words (firstn 227 old) (skipn 1 old) (skipn 397 old) in
  let n2 := mix_words (skipn 227 old) (skipn 228 old) n1 in
  let n3 := mix_words (skipn 454 old) (skipn 455 old) n2 in
  let new_ := n1 ++ n2 ++ n3 in
  new_ ++ [mix (nth 623 old 0) (nth 0 new_ 0) (nth 396 new_ 0)].

Definition temper (y : Z) : Z :=
  let y := Z.lxor y (Z.shiftr y 11) in
  let y := Z.lxor y (Z.land (Z.shiftl y 7) 0x9d2c5680) in
  let y := Z.lxor y (Z.land (Z.shiftl y 15) 0xefc60000) in
  Z.lxor y (Z.shiftr y 18).

(** The next 32-bit output. *)
Definition mt19937_next (st : mt19937_state) : Z * mt19937_state :=
  let st := if (pos st =? 624)%nat
            then {| key := mt19937_gen (key st); pos := 0 |} else st in
  (temper (nth (pos st) (key st) 0), {| key := key st; pos := S (pos st) |}).

(** [random_interval(max)]: a number in [0..max], by masking outputs with
    the smallest all-ones mask that covers [max] and rejecting the ones
    above [max]. *)
Fixpoint interval_loop (fuel : nat) (mask max : Z) (st : mt19937_state)
  : Z * mt19937_state :=
  match fuel with
  | O => (0, st)
  | S f =>
      let (v, st') := mt19937_next st in
      let value := Z.land v mask in
      if value <=? max then (value, st') else interval_loop f mask max st'
  end.

Definition random_interval (max : Z) (st : mt19937_state)
  : Z * mt19937_state :=
  if max =? 0 then (0, st)
  else interval_loop 64 (Z.ones (Z.log2 max + 1)) max st.

Fixpoint set_nth {A} (k : nat) (x : A) (l : list A) {struct l} : list A :=
  match l, k with
  | [], _ => []
  | _ :: l', O => x :: l'
  | a :: l', S k' => a :: set_nth k' x l'
  end.

Definition swap (i j : nat) (l : list nat) : list nat :=
  set_nth i (nth j l O) (set_nth j (nth i l O) l).

(** [shuffle]: for [i] from the last position down to 1, swap entry [i]
    with entry [random_interval(i)]. *)
Fixpoint shuffle_loop (i : nat) (arr : list nat) (st : mt19937_state)
  : list nat * mt19937_state :=
  match i with
  | O => (arr, st)
  | S i' =>
      let (j, st') := random_interval (Z.of_nat i) st in
      shuffle_loop i' (swap i (Z.to_nat j) arr) st'
  end.

(** [permutation(n)]: [arange(n)], shuffled. *)
Definition permutation (n : nat) (st : mt19937_state)
  : list nat * mt19937_state :=
  shuffle_loop (n - 1) (seq 0 n) st.

Local Close Scope Z_scope.

(** The first output of the reference implementation for its default
    seed, and two permutations numpy is known to return. *)
Example mt19937_reference_output :
  fst (mt19937_next (mt19937_seed 5489)) = 3499211612%Z.
Proof. vm_compute. reflexivity. Qed.

Example permutation_seed_0 :
  fst (permutation 10 (mt19937_seed 0)) = [2; 8; 4; 9; 1; 6; 7; 3; 0; 5]%nat.
Proof. vm_compute. reflexivity. Qed.

Example permutation_seed_42 :
  fst (permutation 10 (mt19937_seed 42)) = [8; 1; 5; 0; 7; 2; 9; 4; 3; 6]%nat.
Proof. vm_compute. reflexivity. Qed.

Lemma interval_loop_range fuel mask max st :
  (0 <= mask)%Z -> (0 <= max)%Z ->
  (0 <= fst (interval_loop fuel mask max st) <= max)%Z.
Proof.
  intros Hm Hmax. revert st.
  induction fuel as [|f IH]; intros st; cbn [interval_loop]; [simpl; lia|].
  destruct (mt19937_next st) as [v st'].
  destruct (Z.leb_spec (Z.land v mask) max) as [Hle|_]; [|apply IH].
  simpl. split; [|exact Hle]. apply Z.land_nonneg. now right.
Qed.

Lemma random_interval_range max st :
  (0 <= max)%Z -> (0 <= fst (random_interval max st) <= max)%Z.
Proof.
  intros Hmax. unfold random_interval.
  destruct (Z.eqb_spec max 0) as [->|_]; [simpl; lia|].
  apply interval_loop_range; [|exact Hmax].
  rewrite Z.ones_equiv. pose proof (Z.pow_pos_nonneg 2 (Z.log2 max + 1)).
  pose proof (Z.log2_nonneg max). lia.
Qed.

Lemma set_nth_app {A} (l1 : list A) a l2 x :
  set_nth (length l1) x (l1 ++ a :: l2) = l1 ++ x :: l2.
Proof. induction l1 as [|b l1 IH]; simpl; [reflexivity | now rewrite IH]. Qed.

Lemma set_nth_app_l {A} (l1 l2 : list A) k x :
  (k < length l1)%nat -> set_nth k x (l1 ++ l2) = set_nth k x l1 ++ l2.
Proof.
  revert k. induction l1 as [|b l1 IH]; simpl; intros k Hk; [lia|].
  destruct k as [|k]; simpl; [reflexivity|]. rewrite IH; [reflexivity | lia].
Qed.

Lemma swap_same i l : swap i i l = l.
Proof.
  unfold swap.
  assert (H : forall k (m : list nat), set_nth k (nth k m O) m = m).
  { intros k m. revert k. induction m as [|a m IH]; intros k;
      [reflexivity|]. destruct k; simpl; [reflexivity | now rewrite IH]. }
  assert (Hn : nth i (set_nth i (nth i l O) l) O = nth i l O)
    by now rewrite H.
  rewrite <- Hn at 1. rewrite H. apply H.
Qed.

Lemma swap_split l3 b l4 a l2 :
  swap (length (l3 ++ b :: l4)) (length l3) ((l3 ++ b :: l4) ++ a :: l2)
  = (l3 ++ a :: l4) ++ b :: l2.
Proof.
  unfold swap.
  assert (Ha : nth (length (l3 ++ b :: l4)) ((l3 ++ b :: l4) ++ a :: l2) O = a)
    by apply nth_middle.
  assert (Hb : nth (length l3) ((l3 ++ b :: l4) ++ a :: l2) O = b).
  { rewrite <- app_assoc. simpl. apply nth_middle. }
  rewrite Ha, Hb.
  assert (H1 : set_nth (length l3) a ((l3 ++ b :: l4) ++ a :: l2)
               = (l3 ++ a :: l4) ++ a :: l2).
  { rewrite <- !app_assoc. simpl. apply set_nth_app. }
  rewrite H1.
  replace (length (l3 ++ b :: l4)) with (length (l3 ++ a :: l4))
    by (rewrite !length_app; reflexivity).
  apply set_nth_app.
Qed.

Lemma swap_Permutation i j l :
  (j <= i)%nat -> (i < length l)%nat -> Permutation (swap i j l) l.
Proof.
  intros Hji Hi.
  destruct (Nat.eq_dec j i) as [->|Hne];
    [rewrite swap_same; apply Permutation_refl|].
  destruct (nth_split l O Hi) as [l1 [l2 [Hl Hl1]]].
  remember (nth i l O) as a eqn:Ea. clear Ea. subst l.
  assert (Hj : (j < length l1)%nat) by lia.
  destruct (nth_split l1 O Hj) as [l3 [l4 [Hl3 Hl3len]]].
  remember (nth j l1 O) as b eqn:Eb. clear Eb. subst l1 i j.
  rewrite swap_split. rewrite <- !app_assoc. simpl.
  apply Permutation_app_head.
  transitivity (a :: b :: l4 ++ l2).
  - apply perm_skip. symmetry. apply Permutation_middle.
  - rewrite perm_swap. apply perm_skip. apply Permutation_middle.
Qed.

Lemma swap_length i j l : length (swap i j l) = length l.
Proof.
  assert (H : forall A k (x : A) l, length (set_nth k x l) = length l).
  { intros A k x l0. revert k. induction l0 as [|a l0 IH]; intros k;
      [reflexivity|]. destruct k; simpl; [reflexivity | now rewrite IH]. }
  unfold swap. now rewrite !H.
Qed.

Lemma shuffle_loop_Permutation i arr st :
  (i < length arr)%nat -> Permutation (fst (shuffle_loop i arr st)) arr.
Proof.
  revert arr st. induction i as [|i IH]; intros arr st Hi;
    cbn [shuffle_loop]; [apply Permutation_refl|].
  pose proof (@random_interval_range (Z.of_nat (S i)) st ltac:(lia)) as Hr.
  destruct (random_interval (Z.of_nat (S i)) st) as [j st']. simpl in Hr.
  assert (Hj : (Z.to_nat j <= S i)%nat) by lia.
  rewrite IH by (rewrite swap_length; lia).
  now apply swap_Permutation.
Qed.

Lemma permutation_Permutation n st :
  Permutation (fst (permutation n st)) (seq 0 n).
Proof.
  unfold permutation. destruct n as [|n]; [apply Permutation_refl|].
  apply shuffle_loop_Permutation. rewrite length_seq. lia.
Qed.

End Mtrand.

(** ** Small instances of the library interfaces

    Executable instances on which the pipeline can be run.  The generator
    is numpy's; the others are stand-ins that fix the parameters, not the
    cells. *)

Module Demo.

(** A non-empty run of decimal digits. *)
Definition digits (s : string) : option Q :=
  match DecimalString.NilZero.uint_of_string s with
  | Some u => Some (inject_Z (Z.of_uint u))
  | None => None
  end.

Definition pandas : Pandas := {| parse_float := digits |}.

(** A structure string parses when its branches are closed. *)
Fixpoint closed_branches (depth : nat) (s : string) : bool :=
  match s with
  | EmptyString => (depth =? 0)%nat
  | String "("%char s' => closed_branches (S depth) s'
  | String ")"%char s' =>
      match depth with
      | O => false
      | S d => closed_branches d s'
      end
  | String _ s' => closed_branches depth s'
  end.

Definition rdkit : RDKit :=
  {| Mol := string;
     MolFromSmiles := fun s => if closed_branches 0 s then Some s else None |}.

Fixpoint count (a : Ascii.ascii) (s : string) : nat :=
  match s with
  | EmptyString => O
  | String b s' => (if Ascii.eqb a b then 1 else 0) + count a s'
  end.

(** Atom counts; the ratio is undefined without carbon. *)
Definition atom_counts (d : string) (m : @Mol rdkit) : cell :=
  if String.eqb d "nC" then Num (Qof_nat (count "C" m))
  else if String.eqb d "nO" then Num (Qof_nat (count "O" m))
  else if String.eqb d "nB" then Num (Qof_nat (count "B" m))
  else if String.eqb d "O/C" then
    match count "C" m with
    | O => Err
    | S c => Num (Qof_nat (count "O" m) / Qof_nat (S c))
    end
  else Err.

Definition mordred : @Mordred rdkit :=
  {| descriptors := ["nC"; "nO"; "nB"; "O/C"]%string;
     calculate := atom_counts |}.

(** Square root of a non-negative rational [n / d], rounded down to a
    multiple of [1 / (1000000 d)]. *)
Definition floor_sqrt (q : Q) : Q :=
  Qred (Z.sqrt (Qnum q * Zpos (Qden q) * 10 ^ 12) # (Qden q * 1000000)).

(** numpy with its own generator and the rounded square root. *)
Definition numpy : Numpy :=
  {| sqrt := floor_sqrt;
     RandomState := Mtrand.mt19937_state;
     seed := Mtrand.mt19937_seed;
     permutation := Mtrand.permutation;
     permutation_spec := Mtrand.permutation_Permutation |}.

(** Loadings along the first [k] coordinate axes and a regression that
    keeps the intercept only; neither draws from the generator. *)
Definition axis (n j : nat) : list Q :=
  map (fun i => if (i =? j)%nat then 1%Q else 0%Q) (seq 0 n).

Definition sklearn : @Sklearn numpy :=
  {| svd := fun k X (g : @RandomState numpy) =>
              (map (axis (n_features X)) (seq 0 k), g);
     lasso_path := fun X y (g : @RandomState numpy) =>
              ({| alpha_ := 1; coef_ := repeat 0%Q (n_features X);
                  intercept_ := mean y |}, g) |}.

Definition qm9 : list MoleculeRecord :=
  [ mkRecord 10 "C" 9;       mkRecord 11 "CC" 8;
    mkRecord 12 "CCO" 7;     mkRecord 13 "CO" (15 # 2);
    mkRecord 14 "CC(C)O" 6;  mkRecord 15 "OCCO" (13 # 2);
    mkRecord 16 "CCCC" 5;    mkRecord 17 "O" 10 ]%string.

(** The same records with boron in the one labelled 14. *)
Definition qm9_boron : list MoleculeRecord :=
  [ mkRecord 10 "C" 9;       mkRecord 11 "CC" 8;
    mkRecord 12 "CCO" 7;     mkRecord 13 "CO" (15 # 2);
    mkRecord 14 "CB(C)O" 6;  mkRecord 15 "OCCO" (13 # 2);
    mkRecord 16 "CCCC" 5;    mkRecord 17 "O" 10 ]%string.

End Demo.

(** ** Predicates of the specification *)



(** Whether a computation returned. *)
Definition returned {A} (o : option A) : bool :=
  match o with Some _ => true | None => false end.

(** A frame with [m] rows: in its index and in each of its columns. *)
Definition frame_rows (m : nat) (df : DataFrame) : Prop :=
  len df = m /\ Forall (fun cs => length (snd cs) = m) (columns df).

(** An array with [m] samples in each of its features. *)
Definition array_rows (m : nat) (X : ndarray) : Prop :=
  n_samples X = m /\ Forall (fun col => length col = m) (features X).

(** Row pairing of a partition with its source: row [k] of the records and
    row [k] of the descriptors both come from one position [i] of the
    source, where [data] and [desc] hold a record and its descriptors. *)
Definition paired {A} (data : list A) (desc : DataFrame)
  (part_data : list A) (part_desc : DataFrame) : Prop :=
  len part_desc = length part_data
  /\ forall k, (k < length part_data)%nat ->
       exists i x r,
         nth_error part_data k = Some x /\ nth_error data i = Some x
         /\ row part_desc k = Some r /\ row desc i = Some r.




(** A 32-bit word. *)
Definition word (z : Z) : Prop := (0 <= z < 2 ^ 32)%Z.

(** The state as the C code keeps it: 624 words of 32 bits, and a
    position in them (624 when they are used up). *)
Definition mt19937_valid (st : Mtrand.mt19937_state) : Prop :=
  length (Mtrand.key st) = 624%nat
  /\ Forall word (Mtrand.key st)
  /\ (Mtrand.pos st <= 624)%nat.

(** * Properties *)

(** ** Rational sums *)

Lemma Qof_nat_pos n : (0 < n)%nat -> (0 < Qof_nat n)%Q.
Proof.
  intros H. unfold Qof_nat. change 0%Q with (inject_Z 0).
  rewrite <- Zlt_Qlt. lia.
Qed.


Lemma Qsq_nonneg x : (0 <= Qsq x)%Q.
Proof. unfold Qsq. nra. Qed.

Lemma Qsum_nonneg xs : Forall (fun x => 0 <= x)%Q xs -> (0 <= Qsum xs)%Q.
Proof.
  induction 1 as [|x xs Hx _ IH]; simpl; [apply Qle_refl | lra].
Qed.

(** ** The cleaner *)

(** With fewer than two numbers the standard deviation is NaN, which is
    not [== 0]. *)
Lemma eq_zero_nanstd_count s :
  eq_zero (nanstd 1 s) = true -> (2 <= length (dropna s))%nat.
Proof.
  unfold nanstd, nanvar.
  destruct (Nat.leb_spec (length (dropna s)) 1) as [_|H]; [|intros _; lia].
  intros H. vm_compute in H. discriminate H.
Qed.

Section CleanerFacts.

Variable parse : string -> option Q.

Lemma drop_missing_columns df :
  columns (drop_missing df)
  = filter (fun '(_, s) => negb (existsb isnull s)) (columns df).
Proof.
  unfold drop_missing, loc_not, isnull_any; simpl.
  induction (columns df) as [|[c s] cols IH]; simpl; [reflexivity|].
  destruct (existsb isnull s); simpl; rewrite IH; reflexivity.
Qed.


(** Where a column of the cleaned frame comes from. *)
Lemma In_clean desc c s :
  In (c, s) (columns (clean parse desc)) ->
  exists s0, In (c, s0) (columns desc)
             /\ mem c (zero_variation desc) = false
             /\ s = to_numeric parse s0
             /\ existsb isnull s = false.
Proof.
  unfold clean. rewrite drop_missing_columns. intros H.
  apply filter_In in H. destruct H as [H Hnull].
  apply negb_true_iff in Hnull.
  simpl in H. apply in_map_iff in H. destruct H as [[c0 s0] [Heq H]].
  inversion Heq; subst; clear Heq.
  apply filter_In in H. destruct H as [H Hz].
  apply negb_true_iff in Hz. eauto.
Qed.

Lemma std_In desc c s :
  In (c, s) (columns desc) -> numeric s = true ->
  In (c, nanstd 1 s) (std desc).
Proof.
  intros H Hn. unfold std. apply in_flat_map.
  exists (c, s). split; [exact H|]. rewrite Hn. now left.
Qed.

End CleanerFacts.




(** ** The scaler *)

Lemma handle_zeros_in_scale_nonzero s : ~ (handle_zeros_in_scale s == 0)%Q.
Proof.
  unfold handle_zeros_in_scale. destruct (Qeq_bool s 0) eqn:E.
  - intros H. discriminate H.
  - now apply Qeq_bool_neq.
Qed.

(** C9.  Whatever array a scaler is fitted on (a constant column
    included), every entry of [scale_], the divisor of
    [(value - mean) / scale], is different from zero: a zero square root
    is replaced by one. *)
Theorem scaler_scale_nonzero {np : Numpy} (X : ndarray) :
  Forall (fun s => ~ (s == 0)%Q) (scale_ (scaler_fit X)).
Proof.
  unfold scaler_fit; simpl.
  apply Forall_forall. intros s Hs.
  apply in_map_iff in Hs. destruct Hs as [v [<- _]].
  apply handle_zeros_in_scale_nonzero.
Qed.

(** A run in which the boron count varies over the sampled molecules, so
    that cleaning keeps it, and is constant over the training partition:
    the scaler of the pipeline gives it a variance of 0 and a scale of 1. *)
Example pipeline_scaler_constant_column :
  option_map
    (fun r => (columns (desc (fst r)), columns (train_desc (fst r)),
               option_map (fun s => (map Qred (var_ (fst (fst s))),
                                     map Qred (scale_ (fst (fst s)))))
                          (steps (model (fst r)))))
    (@cells Demo.pandas Demo.numpy Demo.sklearn
            Demo.rdkit Demo.mordred
            128 8 2 1 (1 # 4) Demo.qm9_boron (Mtrand.mt19937_seed 0))
  = Some
      ([("nC"%string,
         [Num 2; Num 1; Num 2; Num 4; Num 0; Num 2; Num 1; Num 2]);
        ("nO"%string,
         [Num 0; Num 0; Num 1; Num 0; Num 1; Num 2; Num 1; Num 1]);
        ("nB"%string,
         [Num 0; Num 0; Num 1; Num 0; Num 0; Num 0; Num 0; Num 0])],
       [("nC"%string, [Num 2; Num 1; Num 4; Num 2; Num 1; Num 0]);
        ("nO"%string, [Num 0; Num 1; Num 0; Num 2; Num 0; Num 1]);
        ("nB"%string, [Num 0; Num 0; Num 0; Num 0; Num 0; Num 0])],
       Some ([14 # 9; 5 # 9; 0],
             [2806243 # 2250000; 6708203 # 9000000; 1])).
Proof. vm_compute. reflexivity. Qed.

(** ** Positional indexing *)

Lemma traverse_length {A B} (f : A -> option B) l l' :
  traverse f l = Some l' -> length l' = length l.
Proof.
  revert l'. induction l as [|a l IH]; simpl; intros l' H.
  - now inversion H.
  - destruct (f a); [|discriminate].
    destruct (traverse f l); [|discriminate].
    inversion H; subst. simpl. now rewrite (IH _ eq_refl).
Qed.

Lemma traverse_Forall2 {A B} (f : A -> option B) l l' :
  traverse f l = Some l' -> Forall2 (fun a b => f a = Some b) l l'.
Proof.
  revert l'. induction l as [|a l IH]; simpl; intros l' H.
  - inversion H. constructor.
  - destruct (f a) eqn:E; [|discriminate].
    destruct (traverse f l); [|discriminate].
    inversion H; subst. constructor; auto.
Qed.

Lemma In_firstn {A} n (l : list A) a : In a (firstn n l) -> In a l.
Proof.
  intros H. rewrite <- (firstn_skipn n l). apply in_or_app. now left.
Qed.

Lemma In_skipn {A} n (l : list A) a : In a (skipn n l) -> In a l.
Proof.
  intros H. rewrite <- (firstn_skipn n l). apply in_or_app. now right.
Qed.

Lemma NoDup_app_disjoint {A} (l1 l2 : list A) :
  NoDup (l1 ++ l2) -> forall a, In a l1 -> ~ In a l2.
Proof.
  induction l1 as [|x l1 IH]; simpl; intros H a Hin; [contradiction|].
  inversion H as [|? ? Hx Hnd]; subst.
  destruct Hin as [->|Hin].
  - intros Hc. apply Hx. apply in_or_app. now right.
  - now apply IH.
Qed.

Lemma take_length {A} idx (a b : list A) :
  take idx a = Some b -> length b = length idx.
Proof.
  revert b. induction idx as [|i idx IH]; simpl; intros b H.
  - now inversion H.
  - destruct (nth_error a i); [|discriminate].
    destruct (take idx a); [|discriminate].
    inversion H; subst. simpl. now rewrite (IH _ eq_refl).
Qed.

(** Entry [k] of the result is the entry of the source at position
    [idx[k]]. *)
Lemma take_nth_error {A} idx (a b : list A) k i :
  take idx a = Some b -> nth_error idx k = Some i ->
  exists x, nth_error b k = Some x /\ nth_error a i = Some x.
Proof.
  revert b k. induction idx as [|j idx IH]; simpl; intros b k H Hk.
  - destruct k; discriminate.
  - destruct (nth_error a j) as [x|] eqn:Ej; [|discriminate].
    destruct (take idx a) as [xs|]; [|discriminate].
    inversion H; subst. destruct k as [|k]; simpl in *.
    + inversion Hk; subst. eauto.
    + eapply IH; eauto.
Qed.

Lemma take_in_range {A} idx (a : list A) :
  Forall (fun i => (i < length a)%nat) idx -> exists b, take idx a = Some b.
Proof.
  induction 1 as [|i idx Hi _ [b IH]]; simpl; [eauto|].
  apply nth_error_Some in Hi.
  destruct (nth_error a i); [|congruence]. rewrite IH. eauto.
Qed.

Lemma take_columns_Forall2 idx cols cols' :
  take_columns idx cols = Some cols' ->
  Forall2 (fun cs cs' => fst cs' = fst cs /\ take idx (snd cs) = Some (snd cs'))
          cols cols'.
Proof.
  revert cols'. induction cols as [|[c s] cols IH]; simpl; intros cols' H.
  - inversion H. constructor.
  - destruct (take idx s) eqn:E; [|discriminate].
    destruct (take_columns idx cols); [|discriminate].
    inversion H; subst. constructor; auto.
Qed.

Lemma iloc_len idx df df' : iloc idx df = Some df' -> len df' = length idx.
Proof.
  unfold iloc, len. intros H.
  destruct (take idx (index df)) eqn:E; [|discriminate].
  destruct (take_columns idx (columns df)); [|discriminate].
  inversion H; subst; simpl. eapply take_length; eauto.
Qed.

(** Row [k] of [df.iloc[idx]] is row [idx[k]] of [df], label included. *)
Lemma iloc_row idx df df' k i :
  iloc idx df = Some df' -> nth_error idx k = Some i ->
  (exists r, row df' k = Some r /\ row df i = Some r)
  /\ (exists z, nth_error (index df') k = Some z
                /\ nth_error (index df) i = Some z).
Proof.
  intros H Hk. pose proof (iloc_len _ _ H) as Hlen.
  unfold iloc in H.
  destruct (take idx (index df)) as [ix|] eqn:Ei; [|discriminate].
  destruct (take_columns idx (columns df)) as [cols|] eqn:Ec; [|discriminate].
  inversion H; subst; clear H.
  destruct (take_nth_error _ _ _ Ei Hk) as [z [Hz Hz']].
  split; [|eauto].
  unfold row, len in *. simpl in *.
  assert (Hk' : (k < length idx)%nat) by (apply nth_error_Some; congruence).
  assert (Hi : (i < length (index df))%nat) by (apply nth_error_Some; congruence).
  destruct (Nat.ltb_spec k (length ix)) as [_|]; [|lia].
  destruct (Nat.ltb_spec i (length (index df))) as [_|]; [|lia].
  eexists; split; [reflexivity|]. f_equal.
  apply take_columns_Forall2 in Ec. clear - Ec Hk.
  induction Ec as [|[c s] [c' s'] cols cols' [_ Hs] _ IH]; simpl;
    [reflexivity|].
  simpl in Hs. destruct (take_nth_error _ _ _ Hs Hk) as [x [Hx Hx']].
  rewrite (nth_error_nth _ _ NaN Hx), (nth_error_nth _ _ NaN Hx'), IH.
  reflexivity.
Qed.

Lemma iloc_in_range idx m df :
  frame_rows m df -> Forall (fun i => (i < m)%nat) idx ->
  exists df', iloc idx df = Some df'.
Proof.
  intros [Hlen Hcols] Hidx. unfold iloc, len in *.
  destruct (@take_in_range _ idx (index df)) as [ix Hix]; [now rewrite Hlen|].
  rewrite Hix.
  assert (Hc : exists cols, take_columns idx (columns df) = Some cols).
  { induction Hcols as [|[c s] cols Hs _ [cols' IH]]; simpl; [eauto|].
    simpl in Hs.
    destruct (@take_in_range _ idx s) as [s' Hs']; [now rewrite Hs|].
    rewrite Hs', IH. eauto. }
  destruct Hc as [cols Hc]. rewrite Hc. eauto.
Qed.

(** ** Runs *)

Section Runs.

Context {np : Numpy}.

Lemma bind_Some {A B} (m : M A) (k : A -> M B) g r :
  bind m k g = Some r ->
  exists a g1, m g = Some (a, g1) /\ k a g1 = Some r.
Proof.
  unfold bind. destruct (m g) as [[a g1]|]; [eauto | discriminate].
Qed.

Lemma lift_Some {A} (o : option A) g a g' :
  lift o g = Some (a, g') -> o = Some a /\ g' = g.
Proof.
  destruct o; simpl; unfold ret, raise; intros H; inversion H; auto.
Qed.

Lemma ret_Some {A} (a b : A) g g' :
  ret a g = Some (b, g') -> b = a /\ g' = g.
Proof. unfold ret. intros H; inversion H; auto. Qed.

End Runs.

(** Peels the first statement off a run that completed. *)
Ltac step H a g E :=
  apply bind_Some in H; destruct H as [a [g [E H]]].

Ltac step_lift H a E :=
  let g := fresh "g" in
  step H a g E; apply lift_Some in E; destruct E as [E ->].

Section SplitFacts.

Context {np : Numpy}.

Lemma permutation_length n g : length (fst (permutation n g)) = n.
Proof.
  rewrite (Permutation_length (permutation_spec n g)). apply length_seq.
Qed.

Lemma permutation_in_range n g :
  Forall (fun i => (i < n)%nat) (fst (permutation n g)).
Proof.
  apply Forall_forall. intros i Hi.
  apply (Permutation_in _ (permutation_spec n g)) in Hi.
  apply in_seq in Hi. lia.
Qed.

(** A sample of [n] rows has [n] rows. *)
Lemma sample_length {A} n (population sampled : list A) g g' :
  sample n population g = Some (sampled, g') -> length sampled = n.
Proof.
  unfold sample. intros H.
  destruct (Nat.ltb_spec (length population) n) as [|Hn]; [discriminate|].
  step H locs g1 E. apply lift_Some in H. destruct H as [H _].
  apply take_length in H. rewrite H, length_firstn.
  unfold np_random_permutation in E. injection E as E.
  replace locs with (fst (permutation (length population) g))
    by now rewrite E.
  rewrite permutation_length. lia.
Qed.

End SplitFacts.

(** ** The train/test split *)

Section SplitPairing.

Context {np : Numpy}.

(** Both partitions of an array and of a frame taken at the same
    positions are paired. *)
Lemma take_iloc_paired {A} idx (data part_data : list A) desc part_desc :
  take idx data = Some part_data -> iloc idx desc = Some part_desc ->
  paired data desc part_data part_desc.
Proof.
  intros Hd Hx. split.
  - rewrite (iloc_len _ _ Hx). symmetry. eapply take_length; eauto.
  - intros k Hk. rewrite (take_length _ _ Hd) in Hk.
    destruct (nth_error idx k) as [i|] eqn:Ei;
      [|apply nth_error_None in Ei; lia].
    destruct (take_nth_error _ _ _ Hd Ei) as [x [Hx1 Hx2]].
    destruct (@iloc_row idx desc part_desc k i Hx Ei) as [[r [Hr1 Hr2]] _].
    exists i, x, r. auto.
Qed.

(** What a completed split did. *)
Lemma train_test_split_inv {A} (data : list A) desc t g
  train_data test_data train_desc test_desc g' :
  train_test_split data desc t g
  = Some (train_data, test_data, train_desc, test_desc, g') ->
  exists n_train n_test perm,
    validate_shuffle_split (length data) t = Some (n_train, n_test)
    /\ permutation (length data) g = (perm, g')
    /\ take (firstn n_train (skipn n_test perm)) data = Some train_data
    /\ take (firstn n_test perm) data = Some test_data
    /\ iloc (firstn n_train (skipn n_test perm)) desc = Some train_desc
    /\ iloc (firstn n_test perm) desc = Some test_desc.
Proof.
  unfold train_test_split. intros H.
  destruct (negb (length data =? len desc)%nat); [discriminate|].
  step_lift H nn E1. destruct nn as [n_train n_test].
  step H perm g1 E2. unfold np_random_permutation in E2. injection E2 as E2.
  step_lift H a1 E3. step_lift H a2 E4. step_lift H a3 E5. step_lift H a4 E6.
  apply ret_Some in H. destruct H as [H ->]. inversion H; subst.
  exists n_train, n_test, perm. auto 10.
Qed.

(** The split returns whenever the two arrays have the same rows and the
    held-out fraction leaves a training row. *)
Lemma train_test_split_total {A} (data : list A) desc t g
  n_train n_test :
  frame_rows (length data) desc ->
  validate_shuffle_split (length data) t = Some (n_train, n_test) ->
  exists r g', train_test_split data desc t g = Some (r, g').
Proof.
  intros Hrows Hv. unfold train_test_split.
  rewrite (proj1 Hrows), Nat.eqb_refl. simpl negb. cbv iota.
  unfold bind at 1. rewrite Hv. simpl.
  unfold bind at 1. unfold np_random_permutation.
  destruct (permutation (length data) g) as [perm g'] eqn:Ep.
  assert (Hperm : Forall (fun i => (i < length data)%nat) perm).
  { replace perm with (fst (permutation (length data) g)) by now rewrite Ep.
    apply permutation_in_range. }
  assert (Hte : Forall (fun i => (i < length data)%nat) (firstn n_test perm)).
  { rewrite Forall_forall in *. intros i Hi. eapply Hperm, In_firstn, Hi. }
  assert (Htr : Forall (fun i => (i < length data)%nat)
                       (firstn n_train (skipn n_test perm))).
  { rewrite Forall_forall in *. intros i Hi.
    eapply Hperm, In_skipn, In_firstn, Hi. }
  destruct (@take_in_range _ _ data Htr) as [a1 H1].
  destruct (@take_in_range _ _ data Hte) as [a2 H2].
  destruct (iloc_in_range Hrows Htr) as [a3 H3].
  destruct (iloc_in_range Hrows Hte) as [a4 H4].
  unfold bind. rewrite H1, H2, H3, H4. simpl. unfold ret. eauto.
Qed.

End SplitPairing.

(** C7.  In both partitions returned by [train_test_split(data, desc)],
    row [k] of the records and row [k] of the descriptors come from the
    same position of the source, hence from the same molecule record. *)
Theorem train_test_split_pairing {np : Numpy} {A} (data : list A)
  (desc : DataFrame) (t : Q) (g g' : RandomState)
  (train_data test_data : list A) (train_desc test_desc : DataFrame) :
  train_test_split data desc t g
  = Some (train_data, test_data, train_desc, test_desc, g') ->
  paired data desc test_data test_desc
  /\ paired data desc train_data train_desc.
Proof.
  intros H. apply train_test_split_inv in H.
  destruct H as [n_train [n_test [perm [_ [_ [H1 [H2 [H3 H4]]]]]]]].
  split; eapply take_iloc_paired; eassumption.
Qed.

(** Four records and their two descriptors, a quarter held out, the
    generator as [np.random.seed(128)] leaves it. *)
Lemma train_test_split_pairing_witness :
  let data := firstn 4 Demo.qm9 in
  let desc :=
    {| index := [10; 11; 12; 13]%Z;
       columns := [("nC"%string, [Num 1; Num 2; Num 2; Num 1]);
                   ("nO"%string, [Num 0; Num 0; Num 1; Num 1])] |} in
  let test_data := [mkRecord 13 "CO" (15 # 2)] in
  let test_desc :=
    {| index := [13]%Z;
       columns := [("nC"%string, [Num 1]); ("nO"%string, [Num 1])] |} in
  option_map (fun r => (snd (fst (fst (fst r))), snd (fst r)))
    (@train_test_split Demo.numpy _ data desc (1 # 4)
       (Mtrand.mt19937_seed 128))
  = Some (test_data, test_desc)
  /\ paired data desc test_data test_desc.
Proof.
  intros data desc test_data test_desc.
  assert (H : option_map (fun r => (snd (fst (fst (fst r))), snd (fst r)))
                (@train_test_split Demo.numpy _ data desc (1 # 4)
                   (Mtrand.mt19937_seed 128))
              = Some (test_data, test_desc)).
  { vm_compute. reflexivity. }
  split; [exact H|]. revert H.
  destruct (@train_test_split Demo.numpy _ data desc (1 # 4)
              (Mtrand.mt19937_seed 128))
    as [[[[[train_data test_data'] train_desc] test_desc'] g']|] eqn:E;
    [|discriminate].
  simpl. intros H. injection H as -> ->.
  exact (proj1 (train_test_split_pairing _ _ _ _ E)).
Defined.

(** ** The notebook *)

Section NotebookFacts.

Context {pd : Pandas} {np : Numpy} {sk : Sklearn}.
Context {rdkit : RDKit} {mordred : Mordred}.

(** What each cell of a completed run computed, and from what. *)
Lemma cells_inv seed_value n_sample k k' test_size qm9 g G g' :
  cells seed_value n_sample k k' test_size qm9 g = Some (G, g') ->
  exists g1 g2 g3 g4 X fitted_16 fitted_8 g_lasso,
    sample n_sample qm9 (seed seed_value) = Some (data G, g1)
    /\ data_mol G = parse_molecules (data G)
    /\ calc_pandas (data_mol G) = Some (computed G)
    /\ desc G = clean parse_float (computed G)
    /\ check_array (desc G) = Some X
    /\ scaler_fit_transform X = Some (feats G, scaler G)
    /\ pca_fit_transform k (feats G) g1 = Some (pca_feats G, pca G, g2)
    /\ lasso_fit (pca_feats G) (map bandgap (data G)) g2
       = Some (lasso G, g_lasso)
    /\ train_test_split (data G) (desc G) test_size g_lasso
       = Some (train_data G, test_rows (test_data G),
               train_desc G, test_desc G, g3)
    /\ pipeline_fit {| pca__n_components := k; steps := None |}
         (train_desc G) (map bandgap (train_data G)) g3
       = Some (fitted_16, g4)
    /\ pipeline_predict fitted_16 (test_desc G)
       = Some (ncomp16_model (test_data G), model_16 G)
    /\ pipeline_fit (set_params k' (model_16 G))
         (train_desc G) (map bandgap (train_data G)) g4
       = Some (fitted_8, g')
    /\ pipeline_predict fitted_8 (test_desc G)
       = Some (ncomp8_model (test_data G), model G)
    /\ compare_models (test_data G) = Some (r2 G).
Proof.
  unfold cells. intros H.
  step H u g0 E0. unfold np_random_seed in E0.
  destruct ((0 <=? seed_value) && (seed_value <? 2 ^ 32))%Z; [|discriminate].
  injection E0 as _ <-.
  step H data0 g1 E1.
  step_lift H computed0 E2.
  step_lift H X E3.
  step_lift H fs E4. destruct fs as [feats0 scaler0].
  step H pp g2 E5. destruct pp as [pca_feats0 pca0].
  step H lasso0 g_lasso E6.
  step H parts g3 E7.
  destruct parts as [[[train_data0 test_rows0] train_desc0] test_desc0].
  step H fitted_16 g4 E8.
  step_lift H y16 E9. destruct y16 as [y16 m16].
  step H fitted_8 g5 E10.
  step_lift H y8 E11. destruct y8 as [y8 m8].
  step_lift H r20 E12.
  apply ret_Some in H. destruct H as [-> ->]. simpl.
  exists g1, g2, g3, g4, X, fitted_16, fitted_8, g_lasso. auto 20.
Qed.

End NotebookFacts.

(** ** Row counts, stage by stage *)

Section Rows.

Context {pd : Pandas} {np : Numpy} {sk : Sklearn}.
Context {rdkit : RDKit} {mordred : Mordred}.

(** The engine gets through the Series when no entry is a null graph. *)
Lemma traverse_from_query (l : list (option Mol)) ms :
  traverse from_query l = Some ms <-> l = map Some ms.
Proof.
  revert ms. induction l as [|m l IH]; simpl; intros ms.
  - split; intros H.
    + inversion H. reflexivity.
    + destruct ms; [reflexivity | discriminate].
  - unfold from_query at 1. destruct m as [m|].
    + split; intros H.
      * destruct (traverse from_query l) as [ms'|]; [|discriminate].
        inversion H; subst. simpl. f_equal. now apply IH.
      * destruct ms as [|m0 ms0]; [discriminate|]. simpl in H.
        injection H as -> Hl. apply IH in Hl. now rewrite Hl.
    + split; intros H; [discriminate|].
      destruct ms; discriminate.
Qed.

Lemma calc_pandas_inv mols df :
  calc_pandas mols = Some df ->
  exists ms, map snd mols = map Some ms
             /\ index df = map fst mols
             /\ columns df = map (fun d => (d, map (calculate d) ms))
                                 descriptors.
Proof.
  unfold calc_pandas.
  destruct (traverse from_query (map snd mols)) as [ms|] eqn:E;
    [|discriminate].
  intros H. inversion H; subst; clear H. simpl.
  exists ms. split; [now apply traverse_from_query | split; reflexivity].
Qed.

Lemma calc_pandas_rows mols df :
  calc_pandas mols = Some df -> frame_rows (length mols) df.
Proof.
  intros H. destruct (calc_pandas_inv _ H) as [ms [Hms [Hi Hc]]].
  assert (Hlen : length ms = length mols).
  { rewrite <- (length_map snd mols), Hms. now rewrite length_map. }
  split.
  - unfold len. now rewrite Hi, length_map.
  - rewrite Hc. apply Forall_forall. intros cs Hin.
    apply in_map_iff in Hin. destruct Hin as [d [<- _]]. simpl.
    now rewrite length_map.
Qed.

(** Cleaning drops columns and rewrites cells; the index is untouched. *)
Lemma clean_rows parse m df :
  frame_rows m df ->
  index (clean parse df) = index df /\ frame_rows m (clean parse df).
Proof.
  intros [Hlen Hcols]. split; [reflexivity|]. split; [exact Hlen|].
  apply Forall_forall. intros [c s] Hin.
  destruct (In_clean _ _ _ _ Hin) as [s0 [Hin0 [_ [-> _]]]].
  rewrite Forall_forall in Hcols. simpl.
  unfold to_numeric. rewrite length_map. exact (Hcols _ Hin0).
Qed.

Lemma check_array_rows m df X :
  check_array df = Some X -> frame_rows m df -> array_rows m X.
Proof.
  unfold check_array. intros H [Hlen Hcols].
  destruct ((len df =? 0)%nat || (length (columns df) =? 0)%nat);
    [discriminate|].
  destruct (traverse (fun '(_, s) => traverse as_float s) (columns df))
    as [cols|] eqn:E; [|discriminate].
  inversion H; subst; clear H. split; [reflexivity|]. simpl.
  apply traverse_Forall2 in E. clear - E Hcols.
  induction E as [|[c s] col cs cols Hs _ IH]; [constructor|].
  inversion Hcols; subst. constructor; [|now apply IH].
  simpl in *. apply traverse_length in Hs. congruence.
Qed.

Lemma scale_columns_rows m cols ms ss :
  Forall (fun col => length col = m) cols ->
  Forall (fun col => length col = m) (scale_columns cols ms ss).
Proof.
  intros H. revert ms ss.
  induction H as [|col cols Hc _ IH]; intros ms ss; simpl; [constructor|].
  destruct ms as [|mu ms]; [constructor|].
  destruct ss as [|s ss]; [constructor|].
  constructor; [|apply IH].
  unfold scale_column. now rewrite length_map.
Qed.

(** Scaling returns as many rows as it is given, and hands the scaler
    back as it was. *)
Lemma scaler_transform_rows m sc X Xt sc' :
  scaler_transform sc X = Some (Xt, sc') -> array_rows m X ->
  array_rows m Xt /\ sc' = sc.
Proof.
  unfold scaler_transform. intros H [Hn Hcols].
  destruct (n_features X =? length (mean_ sc))%nat; [|discriminate].
  inversion H; subst; clear H. split; [|reflexivity].
  split; [reflexivity|]. simpl. now apply scale_columns_rows.
Qed.

Lemma pca_transform_rows p X Xt :
  pca_transform p X = Some Xt -> array_rows (n_samples X) Xt.
Proof.
  unfold pca_transform. intros H.
  destruct (n_features X =? length (pca_mean_ p))%nat; [|discriminate].
  inversion H; subst; clear H. split; [reflexivity|]. simpl.
  apply Forall_forall. intros col Hcol.
  apply in_map_iff in Hcol. destruct Hcol as [w [<- _]].
  now rewrite length_map, length_seq.
Qed.

Lemma pca_fit_transform_rows k X Xt p g g' :
  pca_fit_transform k X g = Some (Xt, p, g') -> array_rows (n_samples X) Xt.
Proof.
  unfold pca_fit_transform. intros H.
  step H p0 g1 E1. step_lift H Xt0 E2.
  apply ret_Some in H. destruct H as [H _]. inversion H; subst.
  eapply pca_transform_rows; eauto.
Qed.

End Rows.

(** C10.  In a run of the notebook that completes, the descriptor frame
    has one row per sampled molecule; cleaning keeps its index and only
    removes columns (a remaining column is the coercion of a computed one);
    the scaled array and the reduced array have that same number of rows in
    every feature. *)
Theorem rows_preserved {pd : Pandas} {np : Numpy} {sk : Sklearn}
  {rdkit : RDKit} {mordred : Mordred}
  (seed_value : Z) (n_sample k k' : nat) (test_size : Q)
  (qm9 : list MoleculeRecord) (g g' : RandomState) (G : Globals) :
  cells seed_value n_sample k k' test_size qm9 g = Some (G, g') ->
  length (data G) = n_sample
  /\ frame_rows n_sample (computed G)
  /\ index (desc G) = index (computed G)
  /\ (forall c s, In (c, s) (columns (desc G)) ->
        exists s0, In (c, s0) (columns (computed G))
                   /\ s = to_numeric parse_float s0)
  /\ frame_rows n_sample (desc G)
  /\ array_rows n_sample (feats G)
  /\ array_rows n_sample (pca_feats G).
Proof.
  intros H. apply cells_inv in H.
  destruct H as (g1 & g2 & g3 & g4 & X & f16 & f8 & gl & Hs & Hm & Hc & Hd
                 & HX & Hsc & Hp & _).
  pose proof (sample_length _ _ _ Hs) as Hn.
  pose proof (calc_pandas_rows _ Hc) as Hrows.
  rewrite Hm in Hrows. unfold parse_molecules in Hrows.
  rewrite length_map, Hn in Hrows.
  destruct (clean_rows parse_float Hrows) as [Hix Hclean].
  rewrite <- Hd in Hix, Hclean.
  pose proof (check_array_rows HX Hclean) as HXr.
  assert (Hfeats : array_rows n_sample (feats G)).
  { eapply scaler_transform_rows; [exact Hsc | exact HXr]. }
  pose proof Hp as Hpca. apply pca_fit_transform_rows in Hpca.
  rewrite (proj1 Hfeats) in Hpca.
  repeat split; try tauto; try apply Hrows; try apply Hclean;
    try apply Hfeats; try apply Hpca.
  intros c s Hin. rewrite Hd in Hin.
  destruct (In_clean _ _ _ _ Hin) as [s0 [Hin0 [_ [-> _]]]]. eauto.
Qed.

(** The run on the eight example molecules. *)
Lemma rows_preserved_witness :
  exists G g',
    @cells Demo.pandas Demo.numpy Demo.sklearn
           Demo.rdkit Demo.mordred
           128 8 2 1 (1 # 4) Demo.qm9 (Mtrand.mt19937_seed 0)
    = Some (G, g')
    /\ length (data G) = 8%nat
    /\ frame_rows 8 (computed G)
    /\ frame_rows 8 (desc G)
    /\ array_rows 8 (feats G)
    /\ array_rows 8 (pca_feats G).
Proof.
  assert (Hrun : returned
                   (@cells Demo.pandas Demo.numpy Demo.sklearn
                      Demo.rdkit Demo.mordred
                      128 8 2 1 (1 # 4) Demo.qm9 (Mtrand.mt19937_seed 0))
                 = true) by (vm_compute; reflexivity).
  destruct (@cells Demo.pandas Demo.numpy Demo.sklearn
                   Demo.rdkit Demo.mordred
                   128 8 2 1 (1 # 4) Demo.qm9 (Mtrand.mt19937_seed 0))
    as [[G g']|] eqn:E; [|discriminate Hrun].
  exists G, g'. split; [reflexivity|].
  pose proof (rows_preserved _ _ _ _ _ _ _ E) as H. tauto.
Defined.

(** ** The two scalers *)

Section Scalers.

Context {pd : Pandas} {np : Numpy} {sk : Sklearn}.
Context {rdkit : RDKit} {mordred : Mordred}.

(** The held-out positions and the training positions do not overlap. *)
Lemma split_positions_disjoint n g n_train n_test i :
  In i (firstn n_train (skipn n_test (fst (permutation n g)))) ->
  ~ In i (firstn n_test (fst (permutation n g))).
Proof.
  intros Htr Hte. apply In_firstn in Htr.
  assert (Hnd : NoDup (fst (permutation n g))).
  { apply (Permutation_NoDup (Permutation_sym (permutation_spec n g))).
    apply seq_NoDup. }
  rewrite <- (firstn_skipn n_test) in Hnd.
  exact (NoDup_app_disjoint _ _ Hnd i Hte Htr).
Qed.

Lemma scaler_fit_transform_inv X Xt sc :
  scaler_fit_transform X = Some (Xt, sc) -> sc = scaler_fit X.
Proof.
  unfold scaler_fit_transform, scaler_transform.
  destruct (n_features X =? _)%nat; [|discriminate].
  intros H. now inversion H.
Qed.

(** Fitting the pipeline fits its scaler on the frame it is given. *)
Lemma pipeline_fit_inv model0 X y g model1 g' :
  pipeline_fit model0 X y g = Some (model1, g') ->
  exists X0 p l,
    check_array X = Some X0 /\ steps model1 = Some (scaler_fit X0, p, l).
Proof.
  unfold pipeline_fit. intros H.
  step_lift H X0 E1. step_lift H a E2. destruct a as [X1 sc].
  step H b g1 E3. destruct b as [X2 p]. step H l g2 E4.
  apply ret_Some in H. destruct H as [-> _]. simpl.
  apply scaler_fit_transform_inv in E2. subst sc. eauto.
Qed.

(** Predicting leaves every fitted attribute of the pipeline as it was. *)
Lemma pipeline_predict_inv model0 X y model1 :
  pipeline_predict model0 X = Some (y, model1) ->
  steps model1 = steps model0.
Proof.
  unfold pipeline_predict. intros H.
  destruct (steps model0) as [[[sc p] l]|]; [|discriminate].
  destruct (check_array X) as [X0|]; [|discriminate].
  unfold scaler_transform in H.
  destruct (n_features X0 =? _)%nat; [|discriminate].
  destruct (pca_transform p _); [|discriminate].
  destruct (lasso_predict l _); [|discriminate].
  now inversion H.
Qed.

End Scalers.

(** C4, as amended.  The scaler inside the evaluated [Pipeline] is fitted
    on the training partition alone, whose rows sit at positions of the
    cleaned frame disjoint from the held-out ones, and it is the same
    scaler after each [predict]; both fits (16 and 8 components) give it
    the same vectors.  The stand-alone [scaler] of the exploration cells is
    fitted on the whole cleaned frame. *)
Theorem scalers_fitted_on {pd : Pandas} {np : Numpy} {sk : Sklearn}
  {rdkit : RDKit} {mordred : Mordred}
  (seed_value : Z) (n_sample k k' : nat) (test_size : Q)
  (qm9 : list MoleculeRecord) (g g' : RandomState) (G : Globals) :
  cells seed_value n_sample k k' test_size qm9 g = Some (G, g') ->
  (exists X, check_array (desc G) = Some X /\ scaler G = scaler_fit X)
  /\ (exists ind_train ind_test,
        iloc ind_train (desc G) = Some (train_desc G)
        /\ iloc ind_test (desc G) = Some (test_desc G)
        /\ forall i, In i ind_train -> ~ In i ind_test)
  /\ (exists X_train,
        check_array (train_desc G) = Some X_train
        /\ (exists p l, steps (model_16 G) = Some (scaler_fit X_train, p, l))
        /\ (exists p l, steps (model G) = Some (scaler_fit X_train, p, l))).
Proof.
  intros H. apply cells_inv in H.
  destruct H as (g1 & g2 & g3 & g4 & X & f16 & f8 & gl & _ & _ & _ & _
                 & HX & Hsc & _ & _ & Hsplit & Hf16 & Hp16 & Hf8 & Hp8 & _).
  split; [|split].
  - exists X. split; [exact HX|]. now apply scaler_fit_transform_inv in Hsc.
  - apply train_test_split_inv in Hsplit.
    destruct Hsplit as (n_train & n_test & perm & _ & Hperm & _ & _ & Htr & Hte).
    exists (firstn n_train (skipn n_test perm)), (firstn n_test perm).
    split; [exact Htr|]. split; [exact Hte|].
    intros i. replace perm with (fst (permutation (length (data G)) gl))
      by now rewrite Hperm.
    apply split_positions_disjoint.
  - apply pipeline_fit_inv in Hf16. destruct Hf16 as (X0 & p & l & HX0 & Hs16).
    apply pipeline_fit_inv in Hf8. destruct Hf8 as (X0' & p' & l' & HX0' & Hs8).
    rewrite HX0 in HX0'. injection HX0' as <-.
    apply pipeline_predict_inv in Hp16. apply pipeline_predict_inv in Hp8.
    exists X0. split; [exact HX0|]. split.
    + exists p, l. congruence.
    + exists p', l'. congruence.
Qed.

(** The run on the eight example molecules. *)
Lemma scalers_fitted_on_witness :
  exists G g',
    @cells Demo.pandas Demo.numpy Demo.sklearn
           Demo.rdkit Demo.mordred
           128 8 2 1 (1 # 4) Demo.qm9 (Mtrand.mt19937_seed 0)
    = Some (G, g')
    /\ (exists X, check_array (desc G) = Some X
                  /\ scaler G = @scaler_fit Demo.numpy X)
    /\ (exists X_train,
          check_array (train_desc G) = Some X_train
          /\ (exists p l,
                steps (model G)
                = Some (@scaler_fit Demo.numpy X_train, p, l))).
Proof.
  assert (Hrun : returned
                   (@cells Demo.pandas Demo.numpy Demo.sklearn
                      Demo.rdkit Demo.mordred
                      128 8 2 1 (1 # 4) Demo.qm9 (Mtrand.mt19937_seed 0))
                 = true) by (vm_compute; reflexivity).
  destruct (@cells Demo.pandas Demo.numpy Demo.sklearn
                   Demo.rdkit Demo.mordred
                   128 8 2 1 (1 # 4) Demo.qm9 (Mtrand.mt19937_seed 0))
    as [[G g']|] eqn:E; [|discriminate Hrun].
  exists G, g'. split; [reflexivity|].
  destruct (scalers_fitted_on _ _ _ _ _ _ _ E)
    as [Hall [_ [X_train [HX [_ Hm]]]]].
  split; [exact Hall|]. exists X_train. split; assumption.
Defined.

(** C4 as stated fails for the stand-alone scaler.  In the run on the
    eight example molecules, listed here are the cleaned frame, the
    training partition, the means held by [scaler] and the means held by
    the scaler of the pipeline: the first are the means of all eight rows,
    the two held-out ones included, the second those of the six training
    rows. *)
Lemma standalone_scaler_fitted_on_all_rows :
  option_map
    (fun r => (columns (desc (fst r)), columns (train_desc (fst r)),
               map Qred (mean_ (scaler (fst r))),
               option_map (fun s => map Qred (mean_ (fst (fst s))))
                          (steps (model (fst r)))))
    (@cells Demo.pandas Demo.numpy Demo.sklearn
            Demo.rdkit Demo.mordred
            128 8 2 1 (1 # 4) Demo.qm9 (Mtrand.mt19937_seed 0))
  = Some
      ([("nC"%string,
         [Num 2; Num 1; Num 3; Num 4; Num 0; Num 2; Num 1; Num 2]);
        ("nO"%string,
         [Num 0; Num 0; Num 1; Num 0; Num 1; Num 2; Num 1; Num 1])],
       [("nC"%string, [Num 2; Num 1; Num 4; Num 2; Num 1; Num 0]);
        ("nO"%string, [Num 0; Num 1; Num 0; Num 2; Num 0; Num 1])],
       [15 # 8; 3 # 4],
       Some [5 # 3; 2 # 3]).
Proof. vm_compute. reflexivity. Qed.

(** ** The principal components *)

Section Components.

Context {np : Numpy} {sk : Sklearn}.

(** What a completed fit of the PCA did. *)
Lemma pca_fit_inv k X g p g' :
  pca_fit k X g = Some (p, g') ->
  (k <= Nat.min (n_samples X) (n_features X))%nat
  /\ n_components p = k
  /\ pca_mean_ p = map mean (features X)
  /\ (length (components_ p) <= k)%nat.
Proof.
  unfold pca_fit.
  destruct (Nat.ltb_spec (Nat.min (n_samples X) (n_features X)) k) as [|Hk];
    [discriminate|].
  destruct (svd k X g) as [V g1]. intros H. injection H as <- _. simpl.
  repeat split; [exact Hk|]. rewrite length_firstn. lia.
Qed.

Lemma pca_fit_transform_inv k X g Xt p g' :
  pca_fit_transform k X g = Some (Xt, p, g') ->
  (k <= Nat.min (n_samples X) (n_features X))%nat
  /\ n_components p = k
  /\ n_samples Xt = n_samples X
  /\ (n_features Xt <= k)%nat
  /\ pca_transform p X = Some Xt.
Proof.
  unfold pca_fit_transform. intros H.
  step H p0 g1 E1. step_lift H Xt0 E2.
  apply ret_Some in H. destruct H as [H _]. injection H as <- <-.
  apply pca_fit_inv in E1. destruct E1 as (Hk & Hn & _ & Hc).
  pose proof E2 as E3. unfold pca_transform in E3.
  destruct (n_features X =? _)%nat; [|discriminate].
  injection E3 as <-. unfold n_features. simpl. rewrite length_map. auto.
Qed.

End Components.










(** ** Parse failures *)

Lemma traverse_from_query_None {rdkit : RDKit} (l : list (option Mol)) :
  traverse from_query l = None <-> In None l.
Proof.
  induction l as [|m l IH]; simpl.
  - split; [discriminate | contradiction].
  - unfold from_query at 1. destruct m as [m|].
    + destruct (traverse from_query l) as [ms|].
      * split; [discriminate|]. intros [H|H]; [discriminate|].
        now apply IH in H.
      * split; [|reflexivity]. intros _. right. now apply IH.
    + split; [|reflexivity]. intros _. now left.
Qed.

(** C5, as amended.  A structure string that fails to parse gives a null
    graph at the position of its record, and the parser goes on.  No cell
    excludes the record: the Series is handed to the descriptor engine as
    it is, and the engine raises on a null graph.  So the descriptor cell
    fails exactly when some record did not parse, and a run whose sample
    holds such a record does not complete.  When every record parses, the
    frame has one row per record, computed from the graph of that
    record. *)
Theorem null_graph_stops_the_run {pd : Pandas} {np : Numpy} {sk : Sklearn}
  {rdkit : RDKit} {mordred : Mordred} (data : list MoleculeRecord) :
  (forall i r, nth_error data i = Some r ->
     nth_error (parse_molecules data) i
     = Some (label r, MolFromSmiles (smiles_0 r)))
  /\ (calc_pandas (parse_molecules data) = None
      <-> exists r, In r data /\ MolFromSmiles (smiles_0 r) = None)
  /\ (forall seed_value n_sample k k' test_size qm9 g g1,
        sample n_sample qm9 (seed seed_value) = Some (data, g1) ->
        (exists r, In r data /\ MolFromSmiles (smiles_0 r) = None) ->
        cells seed_value n_sample k k' test_size qm9 g = None)
  /\ (forall df,
        calc_pandas (parse_molecules data) = Some df ->
        frame_rows (length data) df
        /\ forall i r, nth_error data i = Some r ->
             exists m,
               MolFromSmiles (smiles_0 r) = Some m
               /\ Forall2 (fun d cs =>
                             fst cs = d
                             /\ nth_error (snd cs) i = Some (calculate d m))
                          descriptors (columns df)).
Proof.
  assert (Hnone : calc_pandas (parse_molecules data) = None
                  <-> exists r, In r data /\ MolFromSmiles (smiles_0 r) = None).
  { unfold calc_pandas.
    destruct (traverse from_query (map snd (parse_molecules data)))
      as [ms|] eqn:E.
    - split; [discriminate|]. intros [r [Hr Hm]].
      assert (Hin : In None (map snd (parse_molecules data))).
      { unfold parse_molecules. rewrite map_map. simpl.
        apply in_map_iff. exists r. split; assumption. }
      apply traverse_from_query_None in Hin. congruence.
    - split; [|reflexivity]. intros _.
      apply traverse_from_query_None in E.
      unfold parse_molecules in E. rewrite map_map in E. simpl in E.
      apply in_map_iff in E. destruct E as [r [Hm Hr]]. eauto. }
  split; [|split; [exact Hnone|split]].
  - intros i r Hi. unfold parse_molecules. now rewrite nth_error_map, Hi.
  - intros seed_value n_sample k k' test_size qm9 g g1 Hs Hr.
    apply Hnone in Hr. unfold cells, bind, np_random_seed.
    destruct ((0 <=? seed_value) && (seed_value <? 2 ^ 32))%Z;
      [|reflexivity].
    rewrite Hs, Hr. reflexivity.
  - intros df H. split.
    + pose proof (calc_pandas_rows _ H) as Hr.
      unfold parse_molecules in Hr. now rewrite length_map in Hr.
    + intros i r Hi.
      destruct (calc_pandas_inv _ H) as [ms [Hms [_ Hc]]].
      assert (Hm : nth_error (map snd (parse_molecules data)) i
                   = Some (MolFromSmiles (smiles_0 r))).
      { unfold parse_molecules. rewrite map_map. simpl.
        now rewrite nth_error_map, Hi. }
      rewrite Hms, nth_error_map in Hm.
      destruct (nth_error ms i) as [m|] eqn:Em; [|discriminate].
      injection Hm as Hm. exists m. split; [now symmetry|].
      rewrite Hc. clear - Em.
      induction descriptors as [|d ds IH]; simpl; constructor; [|exact IH].
      simpl. split; [reflexivity|]. now rewrite nth_error_map, Em.
Qed.

(** C5 as stated fails: nothing between the parser and the descriptor
    engine removes a record.  The Series handed to [calc.pandas] holds the
    null graph of the unparsable record, the engine raises on it, and the
    run on a dataset that holds such a record ends there. *)
Lemma null_graph_is_not_excluded :
  let data := [mkRecord 7 "CCO" 7; mkRecord 9 "C(" 8]%string in
  @parse_molecules Demo.rdkit data
  = [(7%Z, Some "CCO"%string); (9%Z, None)]
  /\ @calc_pandas Demo.rdkit Demo.mordred
       (@parse_molecules Demo.rdkit data) = None
  /\ @cells Demo.pandas Demo.numpy Demo.sklearn Demo.rdkit Demo.mordred
            128 9 2 1 (1 # 4) (mkRecord 9 "C(" 8 :: Demo.qm9)
            (Mtrand.mt19937_seed 0) = None.
Proof. vm_compute. repeat split; reflexivity. Qed.

(** ** Seeding *)

(** C2, as amended.  No randomized step is given a seed of its own:
    sampling, the SVD and the split draw from the global generator, which
    the first cell seeds.  Two runs of the notebook on the same input with
    the same seed return the same values and leave the generator in the
    same state, whatever state it was in before either run. *)
Theorem two_runs_agree {pd : Pandas} {np : Numpy} {sk : Sklearn}
  {rdkit : RDKit} {mordred : Mordred}
  (seed_value : Z) (n_sample k k' : nat) (test_size : Q)
  (qm9 : list MoleculeRecord) (g1 g2 : RandomState) :
  cells seed_value n_sample k k' test_size qm9 g1
  = cells seed_value n_sample k k' test_size qm9 g2.
Proof.
  unfold cells, bind, np_random_seed.
  destruct ((0 <=? seed_value) && (seed_value <? 2 ^ 32))%Z; reflexivity.
Qed.

(** C2 as stated fails: the sampling and the split take no seed, and
    what they return on one and the same input changes with the state the
    global generator happens to be in.  After [np.random.seed(128)], the
    same call made twice in a row returns different rows. *)
Lemma steps_draw_from_global_state :
  let population := [10; 11; 12; 13]%Z in
  let desc := {| index := [10; 11; 12; 13]%Z;
                 columns := [("nC"%string, [Num 1; Num 2; Num 2; Num 1])] |} in
  let held_out (r : list Z * list Z * DataFrame * DataFrame) :=
    snd (fst (fst r)) in
  match @sample Demo.numpy _ 2 population (Mtrand.mt19937_seed 128) with
  | Some (first, g) =>
      first = [13; 10]%Z
      /\ option_map fst (@sample Demo.numpy _ 2 population g)
         = Some [11; 10]%Z
  | None => False
  end
  /\ match @train_test_split Demo.numpy _ population desc (1 # 4)
             (Mtrand.mt19937_seed 128) with
     | Some (first, g) =>
         held_out first = [13]%Z
         /\ option_map (fun r => held_out (fst r))
              (@train_test_split Demo.numpy _ population desc (1 # 4) g)
            = Some [11]%Z
     | None => False
     end.
Proof. vm_compute. repeat split; reflexivity. Qed.

(** ** The evaluator *)

(** C3 fails on the code.  With true band gaps 0, 2, 4 and predictions
    1, 2, 3 and 1, 1, 4, the score with the true values as reference is 3/4
    for both models; the last cell passes the prediction as reference and
    reports 0 and 2/3.  Its report holds one score per model: the imported
    [mean_absolute_error] is not called. *)
Theorem compare_models_swaps_reference :
  let test_data :=
    {| test_rows := [mkRecord 0 "C" 0; mkRecord 1 "CC" 2;
                     mkRecord 2 "CCC" 4]%string;
       ncomp16_model := [1; 2; 3]%Q;
       ncomp8_model := [1; 1; 4]%Q |} in
  let y_true := map bandgap (test_rows test_data) in
  option_map (map (fun p => (fst p, reduced (snd p))))
             (compare_models test_data)
  = Some [("8-ncomp-model"%string, Finite (2 # 3));
          ("16-ncomp-model"%string, Finite 0)]
  /\ option_map reduced (r2_score y_true (ncomp8_model test_data))
     = Some (Finite (3 # 4))
  /\ option_map reduced (r2_score y_true (ncomp16_model test_data))
     = Some (Finite (3 # 4))
  /\ option_map reduced (mean_absolute_error y_true (ncomp16_model test_data))
     = Some (Finite (2 # 3)).
Proof. vm_compute. repeat split; reflexivity. Qed.

(** * Further properties of the cells *)

(** ** The generator's state *)

Section Words.

Local Open Scope Z_scope.

Lemma word_log2 z : 0 <= z -> (z < 2 ^ 32 <-> Z.log2 z < 32).
Proof.
  intros H. destruct (Z.eq_dec z 0) as [->|Hz].
  - simpl. lia.
  - apply Z.log2_lt_pow2. lia.
Qed.

Lemma word_land_r a m : word m -> word (Z.land a m).
Proof.
  intros [H0 H1]. unfold word.
  assert (Hm : Z.land m (Z.ones 32) = m).
  { apply Z.land_ones_low; [exact H0 | now apply word_log2]. }
  rewrite <- Hm, Z.land_assoc, Z.land_ones by lia.
  apply Z.mod_pos_bound. lia.
Qed.

Lemma word_lxor a b : word a -> word b -> word (Z.lxor a b).
Proof.
  intros [Ha0 Ha1] [Hb0 Hb1]. unfold word.
  assert (H0 : 0 <= Z.lxor a b) by (apply Z.lxor_nonneg; tauto).
  split; [exact H0|]. apply word_log2; [exact H0|].
  pose proof (Z.log2_lxor a b Ha0 Hb0).
  apply word_log2 in Ha1, Hb1; lia.
Qed.

Lemma word_lor a b : word a -> word b -> word (Z.lor a b).
Proof.
  intros [Ha0 Ha1] [Hb0 Hb1]. unfold word.
  assert (H0 : 0 <= Z.lor a b) by (apply Z.lor_nonneg; tauto).
  split; [exact H0|]. apply word_log2; [exact H0|].
  rewrite (Z.log2_lor a b Ha0 Hb0).
  apply word_log2 in Ha1, Hb1; lia.
Qed.

Lemma word_shiftr a n : 0 <= n -> word a -> word (Z.shiftr a n).
Proof.
  intros Hn [H0 H1]. unfold word. split; [now apply Z.shiftr_nonneg|].
  rewrite Z.shiftr_div_pow2 by exact Hn.
  assert (Hp : 0 < 2 ^ n) by (apply Z.pow_pos_nonneg; lia).
  apply Z.le_lt_trans with a; [|exact H1].
  apply Z.div_le_upper_bound; [exact Hp|]. nia.
Qed.

Lemma word_u32 z : word (Mtrand.u32 z).
Proof. apply word_land_r. unfold word. lia. Qed.

Lemma word_mix a b src : word src -> word (Mtrand.mix a b src).
Proof.
  intros Hs. unfold Mtrand.mix.
  assert (Hy : word (Z.lor (Z.land a 2147483648) (Z.land b 2147483647))).
  { apply word_lor; apply word_land_r; unfold word; lia. }
  apply word_lxor; [apply word_lxor; [exact Hs|]|].
  - apply word_shiftr; [lia | exact Hy].
  - destruct (Z.odd _); unfold word; lia.
Qed.

Lemma word_temper y : word y -> word (Mtrand.temper y).
Proof.
  intros Hy. unfold Mtrand.temper.
  assert (H1 : word (Z.lxor y (Z.shiftr y 11))).
  { apply word_lxor; [exact Hy | apply word_shiftr; [lia | exact Hy]]. }
  set (y1 := Z.lxor y (Z.shiftr y 11)) in *.
  assert (H2 : word (Z.lxor y1 (Z.land (Z.shiftl y1 7) 2636928640))).
  { apply word_lxor; [exact H1 | apply word_land_r; unfold word; lia]. }
  set (y2 := Z.lxor y1 (Z.land (Z.shiftl y1 7) 2636928640)) in *.
  assert (H3 : word (Z.lxor y2 (Z.land (Z.shiftl y2 15) 4022730752))).
  { apply word_lxor; [exact H2 | apply word_land_r; unfold word; lia]. }
  apply word_lxor; [exact H3 | apply word_shiftr; [lia | exact H3]].
Qed.

End Words.

Lemma init_key_valid n pos s :
  word s -> length (Mtrand.init_key n pos s) = n
            /\ Forall word (Mtrand.init_key n pos s).
Proof.
  revert pos s. induction n as [|n IH]; intros pos s Hs;
    cbn [Mtrand.init_key length].
  - split; [reflexivity | constructor].
  - destruct (IH (pos + 1)%Z _ (word_u32
       (1812433253 * Z.lxor s (Z.shiftr s 30) + pos + 1))) as [Hl Hw].
    split; [now rewrite Hl | now constructor].
Qed.

Lemma mix_words_valid a b src :
  Forall word src ->
  length (Mtrand.mix_words a b src)
  = Nat.min (length a) (Nat.min (length b) (length src))
  /\ Forall word (Mtrand.mix_words a b src).
Proof.
  intros Hs. revert a b.
  induction Hs as [|z src Hz _ IH]; intros a b.
  - destruct a as [|x a]; [|destruct b as [|y b]]; simpl;
      (split; [lia | constructor]).
  - destruct a as [|x a]; [simpl; split; [reflexivity | constructor]|].
    destruct b as [|y b]; [simpl; split; [reflexivity | constructor]|].
    cbn [Mtrand.mix_words length]. destruct (IH a b) as [Hl Hw].
    split; [rewrite Hl; lia|]. constructor; [now apply word_mix | exact Hw].
Qed.

Lemma Forall_skipn {A} (P : A -> Prop) n l : Forall P l -> Forall P (skipn n l).
Proof.
  intros H. rewrite Forall_forall in *. intros x Hx. eapply H, In_skipn, Hx.
Qed.

Lemma word_nth n l : Forall word l -> word (nth n l 0%Z).
Proof.
  intros H. destruct (Nat.lt_ge_cases n (length l)) as [Hlt|Hge].
  - rewrite Forall_forall in H. apply H, nth_In, Hlt.
  - rewrite nth_overflow by exact Hge. unfold word. lia.
Qed.

Lemma mt19937_gen_valid old :
  length old = 624%nat -> Forall word old ->
  length (Mtrand.mt19937_gen old) = 624%nat
  /\ Forall word (Mtrand.mt19937_gen old).
Proof.
  intros Hl Hw. unfold Mtrand.mt19937_gen.
  destruct (mix_words_valid (firstn 227 old) (skipn 1 old)
              (Forall_skipn 397 Hw)) as [L1 W1].
  set (n1 := Mtrand.mix_words (firstn 227 old) (skipn 1 old) (skipn 397 old))
    in *.
  destruct (mix_words_valid (skipn 227 old) (skipn 228 old) W1) as [L2 W2].
  set (n2 := Mtrand.mix_words (skipn 227 old) (skipn 228 old) n1) in *.
  destruct (mix_words_valid (skipn 454 old) (skipn 455 old) W2) as [L3 W3].
  set (n3 := Mtrand.mix_words (skipn 454 old) (skipn 455 old) n2) in *.
  rewrite length_firstn, !length_skipn, Hl in L1.
  rewrite !length_skipn, Hl in L2, L3.
  assert (Wn : Forall word (n1 ++ n2 ++ n3)).
  { apply Forall_app. split; [exact W1|]. apply Forall_app. now split. }
  split.
  - rewrite !length_app. cbn [length]. lia.
  - apply Forall_app. split; [exact Wn|].
    constructor; [|constructor]. apply word_mix. now apply word_nth.
Qed.

Lemma mt19937_seed_valid s : mt19937_valid (Mtrand.mt19937_seed s).
Proof.
  unfold mt19937_valid, Mtrand.mt19937_seed.
  cbn [Mtrand.key Mtrand.pos].
  destruct (@init_key_valid 624 0%Z _ (word_u32 s)) as [Hl Hw].
  split; [exact Hl | split; [exact Hw | apply Nat.le_refl]].
Qed.

Lemma mt19937_next_preserves st :
  mt19937_valid st ->
  word (fst (Mtrand.mt19937_next st))
  /\ mt19937_valid (snd (Mtrand.mt19937_next st)).
Proof.
  intros (Hl & Hw & Hp). unfold Mtrand.mt19937_next.
  destruct (Nat.eqb_spec (Mtrand.pos st) 624) as [E|E];
    cbv beta zeta; cbn [fst snd Mtrand.key Mtrand.pos].
  - destruct (mt19937_gen_valid Hl Hw) as [Hl' Hw'].
    split; [apply word_temper, word_nth, Hw'|].
    split; [exact Hl' | split; [exact Hw' | cbn [Mtrand.pos]; lia]].
  - split; [apply word_temper, word_nth, Hw|].
    split; [exact Hl | split; [exact Hw | cbn [Mtrand.pos]; lia]].
Qed.

Lemma interval_loop_valid fuel mask max st :
  mt19937_valid st ->
  mt19937_valid (snd (Mtrand.interval_loop fuel mask max st)).
Proof.
  revert st. induction fuel as [|f IH]; intros st Hst;
    cbn [Mtrand.interval_loop]; [exact Hst|].
  pose proof (mt19937_next_preserves Hst) as [_ Hn].
  destruct (Mtrand.mt19937_next st) as [v st']. cbn [snd] in Hn.
  destruct (Z.land v mask <=? max)%Z; [exact Hn | now apply IH].
Qed.

Lemma random_interval_valid max st :
  mt19937_valid st -> mt19937_valid (snd (Mtrand.random_interval max st)).
Proof.
  intros Hst. unfold Mtrand.random_interval.
  destruct (max =? 0)%Z; [exact Hst | now apply interval_loop_valid].
Qed.

Lemma shuffle_loop_valid i arr st :
  mt19937_valid st -> mt19937_valid (snd (Mtrand.shuffle_loop i arr st)).
Proof.
  revert arr st. induction i as [|i IH]; intros arr st Hst;
    cbn [Mtrand.shuffle_loop]; [exact Hst|].
  pose proof (@random_interval_valid (Z.of_nat (S i)) st Hst) as Hn.
  destruct (Mtrand.random_interval (Z.of_nat (S i)) st) as [j st'].
  now apply IH.
Qed.

(** X1.  The generator keeps its state well formed: from 624 words of 32
    bits and a position of at most 624, a draw returns a 32-bit word and
    leaves such a state, and so does a permutation of any length. *)
Theorem mt19937_draws_keep_state_valid (st : Mtrand.mt19937_state) (n : nat) :
  mt19937_valid st ->
  word (fst (Mtrand.mt19937_next st))
  /\ mt19937_valid (snd (Mtrand.mt19937_next st))
  /\ mt19937_valid (snd (Mtrand.permutation n st)).
Proof.
  intros Hst. destruct (mt19937_next_preserves Hst) as [Hw Hn].
  split; [exact Hw|]. split; [exact Hn|].
  unfold Mtrand.permutation. now apply shuffle_loop_valid.
Qed.

(** The state [np.random.seed(128)] leaves, and a permutation of 1024
    positions from it. *)
Lemma mt19937_draws_keep_state_valid_witness :
  mt19937_valid (Mtrand.mt19937_seed 128)
  /\ word (fst (Mtrand.mt19937_next (Mtrand.mt19937_seed 128)))
  /\ mt19937_valid (snd (Mtrand.permutation 1024 (Mtrand.mt19937_seed 128))).
Proof.
  pose proof (mt19937_seed_valid 128) as Hs.
  split; [exact Hs|].
  destruct (mt19937_draws_keep_state_valid 1024 Hs) as (Hw & _ & Hp).
  split; [exact Hw | exact Hp].
Defined.

(** X2.  [permutation(n)] of the generator returns [n] positions without
    repeats, and a position is among them exactly when it is below [n]. *)
Theorem permutation_arrangement (n : nat) (st : Mtrand.mt19937_state) :
  let perm := fst (Mtrand.permutation n st) in
  length perm = n
  /\ NoDup perm
  /\ (forall i, In i perm <-> (i < n)%nat).
Proof.
  cbv zeta. pose proof (Mtrand.permutation_Permutation n st) as Hp.
  split; [|split].
  - rewrite (Permutation_length Hp). apply length_seq.
  - apply (Permutation_NoDup (Permutation_sym Hp)), seq_NoDup.
  - intros i. split; intros Hi.
    + apply (Permutation_in _ Hp) in Hi. apply in_seq in Hi. lia.
    + apply (Permutation_in _ (Permutation_sym Hp)). apply in_seq. lia.
Qed.

(** ** Sampling *)

Section SamplingFacts.

Context {np : Numpy}.

Lemma permutation_NoDup n g : NoDup (fst (permutation n g)).
Proof.
  apply (Permutation_NoDup (Permutation_sym (permutation_spec n g))).
  apply seq_NoDup.
Qed.

Lemma NoDup_firstn {A} n (l : list A) : NoDup l -> NoDup (firstn n l).
Proof.
  intros H. rewrite <- (firstn_skipn n l) in H.
  exact (NoDup_app_remove_r _ _ H).
Qed.

Lemma sample_inv {A} n (population sampled : list A) g g' :
  sample n population g = Some (sampled, g') ->
  (n <= length population)%nat
  /\ g' = snd (permutation (length population) g)
  /\ take (firstn n (fst (permutation (length population) g))) population
     = Some sampled.
Proof.
  unfold sample. intros H.
  destruct (Nat.ltb_spec (length population) n) as [|Hn]; [discriminate|].
  step H locs g1 E. apply lift_Some in H. destruct H as [H ->].
  unfold np_random_permutation in E. injection E as E.
  rewrite E. simpl. auto.
Qed.

End SamplingFacts.

(** X3.  [.sample(n)] returns exactly when the population holds at least
    [n] rows; with fewer it raises. *)
Theorem sample_returns {np : Numpy} {A} (n : nat) (population : list A)
  (g : RandomState) :
  returned (sample n population g) = (n <=? length population)%nat.
Proof.
  unfold sample.
  destruct (Nat.ltb_spec (length population) n) as [Hlt|Hle].
  - simpl. symmetry. apply Nat.leb_gt. exact Hlt.
  - unfold bind, np_random_permutation.
    destruct (permutation (length population) g) as [locs g1] eqn:E.
    assert (Hr : Forall (fun i => (i < length population)%nat) (firstn n locs)).
    { pose proof (permutation_in_range (length population) g) as Hp.
      rewrite E in Hp. simpl in Hp.
      rewrite Forall_forall in *. intros i Hi. eapply Hp, In_firstn, Hi. }
    destruct (@take_in_range _ _ population Hr) as [b Hb].
    rewrite Hb. simpl. symmetry. now apply Nat.leb_le.
Qed.

(** X4.  A sample that returns holds [n] rows, taken at [n] distinct
    positions of the population: no row is drawn twice. *)
Theorem sample_distinct_rows {np : Numpy} {A} (n : nat)
  (population sampled : list A) (g g' : RandomState) :
  sample n population g = Some (sampled, g') ->
  length sampled = n
  /\ exists locs,
       NoDup locs
       /\ Forall (fun i => (i < length population)%nat) locs
       /\ take locs population = Some sampled.
Proof.
  intros H. split; [eapply sample_length; eauto|].
  apply sample_inv in H. destruct H as [_ [_ H]].
  exists (firstn n (fst (permutation (length population) g))).
  split; [apply NoDup_firstn, permutation_NoDup|].
  split; [|exact H].
  pose proof (permutation_in_range (length population) g) as Hp.
  rewrite Forall_forall in *. intros i Hi. eapply Hp, In_firstn, Hi.
Qed.

(** Two rows out of four, the generator as [np.random.seed(128)] leaves
    it. *)
Lemma sample_distinct_rows_witness :
  option_map fst (@sample Demo.numpy _ 2 [10; 11; 12; 13]%Z
                    (Mtrand.mt19937_seed 128))
  = Some [13; 10]%Z
  /\ exists locs,
       NoDup locs
       /\ Forall (fun i => (i < 4)%nat) locs
       /\ take locs [10; 11; 12; 13]%Z = Some [13; 10]%Z.
Proof.
  assert (H : option_map fst (@sample Demo.numpy _ 2 [10; 11; 12; 13]%Z
                                (Mtrand.mt19937_seed 128))
              = Some [13; 10]%Z) by (vm_compute; reflexivity).
  split; [exact H|]. revert H.
  destruct (@sample Demo.numpy _ 2 [10; 11; 12; 13]%Z
              (Mtrand.mt19937_seed 128)) as [[sampled g']|] eqn:E;
    [|discriminate].
  simpl. intros H. injection H as ->.
  exact (proj2 (sample_distinct_rows _ _ _ E)).
Defined.

(** ** The descriptor frame *)

(** X5.  Parsing keeps one entry per record under the record's label, and
    the descriptor frame built from the parse results carries the labels of
    the records as its index and the descriptor names, in order, as its
    column labels: its shape is (records, descriptors). *)
Theorem calc_pandas_labels {rdkit : RDKit} {mordred : Mordred}
  (data : list MoleculeRecord) (df : DataFrame) :
  calc_pandas (parse_molecules data) = Some df ->
  map fst (parse_molecules data) = map label data
  /\ index df = map label data
  /\ map fst (columns df) = descriptors
  /\ shape df = (length data, length descriptors).
Proof.
  intros H.
  assert (Hl : map fst (parse_molecules data) = map label data).
  { unfold parse_molecules. rewrite map_map. reflexivity. }
  split; [exact Hl|].
  destruct (calc_pandas_inv _ H) as [ms [_ [Hi Hcols]]].
  rewrite Hl in Hi. split; [exact Hi|].
  assert (Hc : map fst (columns df) = descriptors).
  { rewrite Hcols, map_map. simpl. apply map_id. }
  split; [exact Hc|].
  unfold shape, len.
  now rewrite <- Hc, Hi, !length_map.
Qed.

(** Two records and the four example descriptors. *)
Lemma calc_pandas_labels_witness :
  let data := [mkRecord 7 "CCO" 7; mkRecord 9 "CO" 8]%string in
  option_map shape
    (@calc_pandas Demo.rdkit Demo.mordred (@parse_molecules Demo.rdkit data))
  = Some (2, 4)%nat
  /\ option_map index
       (@calc_pandas Demo.rdkit Demo.mordred (@parse_molecules Demo.rdkit data))
     = Some [7; 9]%Z.
Proof.
  intros data.
  assert (Hrun : returned
                   (@calc_pandas Demo.rdkit Demo.mordred
                      (@parse_molecules Demo.rdkit data)) = true)
    by (vm_compute; reflexivity).
  destruct (@calc_pandas Demo.rdkit Demo.mordred
              (@parse_molecules Demo.rdkit data)) as [df|] eqn:E;
    [|discriminate Hrun].
  destruct (@calc_pandas_labels Demo.rdkit Demo.mordred data df E)
    as [_ [Hi [_ Hs]]].
  simpl. now rewrite Hi, Hs.
Defined.

(** ** The cleaning cells, one by one *)

Lemma In_std desc c st :
  In (c, st) (std desc) ->
  exists s, In (c, s) (columns desc) /\ numeric s = true /\ st = nanstd 1 s.
Proof.
  unfold std. intros H. apply in_flat_map in H.
  destruct H as [[c0 s] [Hin H]].
  destruct (numeric s) eqn:E; [|contradiction].
  destruct H as [H|[]]. inversion H; subst. eauto.
Qed.

(** The labels [zero_variation] lists, by the test the cell makes. *)
Lemma In_zero_variation desc c :
  In c (zero_variation desc) <->
  exists s, In (c, s) (columns desc) /\ numeric s = true
            /\ eq_zero (nanstd 1 s) = true.
Proof.
  unfold zero_variation. rewrite in_map_iff. split.
  - intros [[c0 st] [Hc H]]. simpl in Hc. subst c0.
    apply filter_In in H. destruct H as [H Hz].
    destruct (In_std _ _ _ H) as [s [Hin [Hn ->]]]. eauto.
  - intros [s [Hin [Hn Hz]]]. exists (c, nanstd 1 s). split; [reflexivity|].
    apply filter_In. split; [now apply std_In | exact Hz].
Qed.

(** X6.  A label that [zero_variation] lists is the label of a column
    that [desc.std()] looks at (numbers and missing values only) and that
    holds two numbers at least: with fewer the deviation is NaN.  The list
    is not the list of the constant columns: 0.1 in each of three rows has
    a computed deviation of 1.7e-17 and is not listed, and the integers
    2^53 + 1 and 2^53, which the cast to [float64] makes equal, are. *)
Theorem zero_variation_spec (desc : DataFrame) (c : string) :
  (In c (zero_variation desc) ->
   exists s, In (c, s) (columns desc) /\ numeric s = true
             /\ (2 <= length (dropna s))%nat)
  /\ zero_variation
       {| index := [0; 1; 2]%Z;
          columns := [("FCSP3"%string,
                       [Num (1 # 10); Num (1 # 10); Num (1 # 10)])] |} = []
  /\ zero_variation
       {| index := [0; 1]%Z;
          columns := [("ID"%string,
                       [Num 9007199254740993; Num 9007199254740992])] |}
     = ["ID"%string].
Proof.
  split; [|split; vm_compute; reflexivity].
  rewrite In_zero_variation.
  intros [s [Hin [Hn Hz]]]. exists s.
  pose proof (eq_zero_nanstd_count Hz). auto.
Qed.

Lemma zero_variation_length desc :
  (length (zero_variation desc) <= length (columns desc))%nat.
Proof.
  unfold zero_variation. rewrite length_map.
  etransitivity; [apply filter_length_le|].
  unfold std. induction (columns desc) as [|[c s] cols IH]; simpl; [lia|].
  rewrite length_app. destruct (numeric s); simpl; lia.
Qed.

Lemma Qof_nat_le a b : (a <= b)%nat -> (Qof_nat a <= Qof_nat b)%Q.
Proof.
  intros H. unfold Qof_nat. rewrite <- Zle_Qle. lia.
Qed.

(** X7.  The cell that reports the constant features divides by the
    number of columns: it raises on a frame without columns and on no
    other.  When it prints, the count is the length of [zero_variation],
    at most the number of columns; the share lies between 0 and 100; the
    examples are the first five labels at most, all of them column
    labels. *)
Theorem constant_features_bounds (desc : DataFrame) :
  match constant_features desc with
  | None => columns desc = []
  | Some (n, share, examples) =>
      columns desc <> []
      /\ n = length (zero_variation desc)
      /\ (n <= length (columns desc))%nat
      /\ (0 <= share <= 100)%Q
      /\ length examples = Nat.min 5 n
      /\ incl examples (map fst (columns desc))
  end.
Proof.
  unfold constant_features, true_divide.
  pose proof (zero_variation_length desc) as Hle.
  destruct (Nat.eqb_spec (length (columns desc)) 0) as [E|E].
  - now apply length_zero_iff_nil.
  - split; [intros Hc; now rewrite Hc in E|].
    split; [reflexivity|]. split; [exact Hle|].
    assert (Hd : (0 < Qof_nat (length (columns desc)))%Q)
      by (apply Qof_nat_pos; lia).
    assert (Hn : (0 <= Qof_nat (length (zero_variation desc)))%Q).
    { change 0%Q with (Qof_nat 0). apply Qof_nat_le. lia. }
    apply Qof_nat_le in Hle.
    split; [|split].
    + split.
      * apply Qmult_le_0_compat; [|discriminate].
        apply Qle_shift_div_l; [exact Hd|]. lra.
      * assert (H1 : (Qof_nat (length (zero_variation desc))
                      / Qof_nat (length (columns desc)) <= 1)%Q).
        { apply Qle_shift_div_r; [exact Hd|]. lra. }
        lra.
    + apply length_firstn.
    + intros c Hc. apply In_firstn in Hc.
      apply In_zero_variation in Hc. destruct Hc as [s [Hin _]].
      apply in_map_iff. now exists (c, s).
Qed.

(** A label names one column when the labels are distinct. *)
Lemma NoDup_labels (cols : list (string * Series)) c s s' :
  NoDup (map fst cols) -> In (c, s) cols -> In (c, s') cols -> s = s'.
Proof.
  induction cols as [|[c0 s0] cols IH]; simpl; intros Hnd H1 H2;
    [contradiction|].
  inversion Hnd as [|? ? Hc0 Hnd']; subst.
  destruct H1 as [H1|H1], H2 as [H2|H2].
  - congruence.
  - inversion H1; subst. exfalso. apply Hc0.
    apply in_map_iff. now exists (c, s').
  - inversion H2; subst. exfalso. apply Hc0.
    apply in_map_iff. now exists (c, s).
  - now apply IH.
Qed.

Lemma zero_variation_filter desc :
  zero_variation desc
  = map fst (filter (fun '(_, s) => numeric s && eq_zero (nanstd 1 s))
                    (columns desc)).
Proof.
  unfold zero_variation, std.
  induction (columns desc) as [|[c s] cols IH]; simpl; [reflexivity|].
  destruct (numeric s); simpl; [|exact IH].
  destruct (eq_zero (nanstd 1 s)); simpl; now rewrite IH.
Qed.

Lemma mem_In c cs : mem c cs = true <-> In c cs.
Proof.
  unfold mem. rewrite existsb_exists. split.
  - intros [x [Hx He]]. apply String.eqb_eq in He. now subst.
  - intros H. exists c. split; [exact H | apply String.eqb_refl].
Qed.

(** X8.  With distinct column labels, dropping the constant columns
    keeps the index, leaves as many columns as there were minus the length
    of [zero_variation] (the printed shape), and keeps a column exactly
    when its label is not listed. *)
Theorem drop_zero_variation_shape (desc : DataFrame) :
  NoDup (map fst (columns desc)) ->
  index (drop_zero_variation desc) = index desc
  /\ shape (drop_zero_variation desc)
     = (len desc, length (columns desc) - length (zero_variation desc))%nat
  /\ (forall c s, In (c, s) (columns (drop_zero_variation desc)) <->
        In (c, s) (columns desc) /\ ~ In c (zero_variation desc)).
Proof.
  intros Hnd. split; [reflexivity|]. split.
  - unfold shape, drop_zero_variation, drop, len. simpl. f_equal.
    set (q := fun cs : string * Series =>
                let '(_, s) := cs in numeric s && eq_zero (nanstd 1 s)).
    assert (Hext : filter (fun '(c, _) => negb (mem c (zero_variation desc)))
                          (columns desc)
                   = filter (fun cs => negb (q cs)) (columns desc)).
    { apply filter_ext_in. intros [c s] Hin. f_equal.
      apply eq_true_iff_eq. rewrite mem_In, In_zero_variation.
      unfold q. rewrite andb_true_iff. split.
      - intros [s' [Hin' H]].
        rewrite (@NoDup_labels _ _ _ _ Hnd Hin Hin'). tauto.
      - intros H. exists s. tauto. }
    rewrite Hext, zero_variation_filter, length_map.
    pose proof (filter_length q (columns desc)) as Hlen.
    fold q. lia.
  - intros c s. unfold drop_zero_variation, drop. simpl.
    rewrite filter_In, negb_true_iff, <- mem_In.
    destruct (mem c (zero_variation desc)); intuition congruence.
Qed.

(** Three molecules without boron: one column goes. *)
Lemma drop_zero_variation_shape_witness :
  let desc :=
    {| index := [0; 1; 2]%Z;
       columns := [("nC"%string, [Num 1; Num 2; Num 2]);
                   ("nB"%string, [Num 0; Num 0; Num 0]);
                   ("O/C"%string, [Num 0; Err; Num (1 # 2)])] |} in
  zero_variation desc = ["nB"%string]
  /\ shape (drop_zero_variation desc) = (3, 2)%nat.
Proof.
  intros desc. split; [vm_compute; reflexivity|].
  assert (Hnd : NoDup (map fst (columns desc))).
  { simpl. repeat constructor; simpl; intuition discriminate. }
  exact (proj1 (proj2 (drop_zero_variation_shape desc Hnd))).
Defined.

Section Coercion.

Variable parse : string -> option Q.

Lemma coerce_is_number c : is_number (coerce parse c) = true.
Proof.
  destruct c as [x| |s|]; simpl; try reflexivity. now destruct (parse s).
Qed.

Lemma coerce_idempotent c : coerce parse (coerce parse c) = coerce parse c.
Proof.
  destruct c as [x| |s|]; simpl; try reflexivity. now destruct (parse s).
Qed.

(** X9.  The conversion loop keeps the shape, the index and the column
    labels in order; afterwards every column holds numbers and missing
    values only, so [std()] would leave none of them out; running the loop
    again changes nothing. *)
Theorem convert_to_numbers_spec (desc : DataFrame) :
  let desc' := convert_to_numbers parse desc in
  shape desc' = shape desc
  /\ index desc' = index desc
  /\ map fst (columns desc') = map fst (columns desc)
  /\ Forall (fun cs => numeric (snd cs) = true) (columns desc')
  /\ map fst (std desc') = map fst (columns desc)
  /\ convert_to_numbers parse desc' = desc'.
Proof.
  unfold convert_to_numbers, shape, len, std. simpl.
  split; [now rewrite length_map|]. split; [reflexivity|].
  induction (columns desc) as [|[c s] cols (H1 & H2 & H3 & H4)]; simpl.
  - repeat split; constructor.
  - assert (Hn : numeric (to_numeric parse s) = true).
    { unfold numeric, to_numeric. apply forallb_forall. intros x Hx.
      apply in_map_iff in Hx. destruct Hx as [y [<- _]].
      apply coerce_is_number. }
    split; [now rewrite H1|]. split; [now constructor|].
    rewrite Hn. simpl. split; [now rewrite H3|].
    f_equal. injection H4 as H4.
    f_equal; [|exact H4].
    f_equal. unfold to_numeric. rewrite map_map.
    apply map_ext. intros x. apply coerce_idempotent.
Qed.

End Coercion.

Lemma mask_sum_isnull_any cols :
  (mask_sum (map (fun '(c, s) => (c, existsb isnull s)) cols)
   + length (filter (fun '(_, s) => negb (existsb isnull s)) cols)
   = length cols)%nat.
Proof.
  unfold mask_sum.
  induction cols as [|[c s] cols IH]; simpl; [reflexivity|].
  destruct (existsb isnull s); simpl; lia.
Qed.

(** X10.  Dropping the columns with missing values keeps the index; the
    number printed by [missing_values.sum()] and the number of columns left
    add up to the number of columns before; a column is kept exactly when
    none of its rows is missing. *)
Theorem drop_missing_spec (desc : DataFrame) :
  index (drop_missing desc) = index desc
  /\ (mask_sum (isnull_any desc) + length (columns (drop_missing desc))
      = length (columns desc))%nat
  /\ (forall c s, In (c, s) (columns (drop_missing desc)) <->
        In (c, s) (columns desc) /\ ~ In NaN s).
Proof.
  split; [reflexivity|]. rewrite drop_missing_columns. split.
  - apply mask_sum_isnull_any.
  - intros c s. rewrite filter_In, negb_true_iff.
    assert (H : existsb isnull s = false <-> ~ In NaN s).
    { rewrite <- not_true_iff_false, existsb_exists. split.
      - intros H Hin. apply H. now exists NaN.
      - intros H [x [Hin Hx]]. destruct x; try discriminate. exact (H Hin). }
    tauto.
Qed.

(** ** The cleaner, as a whole *)

(** X11.  The cleaned frame holds exactly the coerced columns that have
    no missing value and whose label the first step did not list. *)
Theorem clean_spec (parse : string -> option Q) (desc : DataFrame)
  (c : string) (s : Series) :
  In (c, s) (columns (clean parse desc)) <->
  exists s0,
    In (c, s0) (columns desc)
    /\ s = to_numeric parse s0
    /\ ~ In NaN s
    /\ ~ In c (zero_variation desc).
Proof.
  split.
  - intros H. destruct (In_clean _ _ _ _ H) as [s0 [Hin [Hz [Hs Hnull]]]].
    exists s0. split; [exact Hin|]. split; [exact Hs|]. split.
    + intros Hn. rewrite <- not_true_iff_false in Hnull. apply Hnull.
      apply existsb_exists. now exists NaN.
    + intros Hc. apply mem_In in Hc. congruence.
  - intros [s0 [Hin [Hs [Hn Hc]]]]. unfold clean.
    rewrite drop_missing_columns. apply filter_In. split.
    + simpl. apply in_map_iff. exists (c, s0). split; [now rewrite Hs|].
      apply filter_In. split; [exact Hin|].
      apply negb_true_iff, not_true_iff_false. intros Hm.
      apply mem_In in Hm. exact (Hc Hm).
    + apply negb_true_iff, not_true_iff_false. intros He.
      apply existsb_exists in He. destruct He as [x [Hx Hnull]].
      destruct x; try discriminate. exact (Hn Hx).
Qed.

(** ** The scaled array *)

Lemma scale_columns_map (f g : list Q -> Q) cols :
  scale_columns cols (map f cols) (map g cols)
  = map (fun col => scale_column col (f col) (g col)) cols.
Proof.
  induction cols as [|col cols IH]; simpl; [reflexivity | now rewrite IH].
Qed.

Lemma scaler_fit_transform_features {np : Numpy} X Xt sc :
  scaler_fit_transform X = Some (Xt, sc) ->
  n_samples Xt = n_samples X
  /\ features Xt
     = map (fun col => scale_column col (mean col)
                         (handle_zeros_in_scale (sqrt (variance col))))
           (features X).
Proof.
  unfold scaler_fit_transform, scaler_transform, scaler_fit. simpl.
  destruct (n_features X =? _)%nat; [|discriminate].
  intros H. injection H as <- _. simpl. split; [reflexivity|].
  rewrite map_map. apply (scale_columns_map mean).
Qed.

(** ** The regression *)

Lemma weighted_sum_ignores_zero (i : nat) (fs fs' : list (list Q))
  (ws : list Q) :
  length fs = length ws -> length fs' = length ws ->
  (forall j, (j < length ws)%nat ->
     nth j fs [] = nth j fs' [] \/ (nth j ws 0 == 0)%Q) ->
  (Qsum (map (fun '(col, w) => nth i col 0 * w) (combine fs ws))
   == Qsum (map (fun '(col, w) => nth i col 0 * w) (combine fs' ws)))%Q.
Proof.
  revert fs fs'. induction ws as [|w ws IH]; intros fs fs' H1 H2 H.
  - destruct fs, fs'; reflexivity.
  - destruct fs as [|col fs]; [discriminate|].
    destruct fs' as [|col' fs']; [discriminate|].
    cbn [combine map Qsum fold_right].
    rewrite (IH fs fs').
    + destruct (H 0%nat ltac:(simpl; lia)) as [E|E]; cbn [nth] in E.
      * now rewrite E.
      * rewrite E. unfold Qsum. ring.
    + simpl in H1. lia.
    + simpl in H2. lia.
    + intros j Hj. apply (H (S j)). simpl. lia.
Qed.

Lemma Forall2_map_seq (f f' : nat -> Q) (n : nat) :
  (forall i, (f i == f' i)%Q) ->
  Forall2 Qeq (map f (seq 0 n)) (map f' (seq 0 n)).
Proof.
  intros H. induction (seq 0 n) as [|i l IH]; simpl; constructor; auto.
Qed.

Lemma Some_inj {A} (a b : A) : Some a = Some b -> a = b.
Proof. intros H. now injection H. Qed.

(** X28.  A feature whose coefficient is zero has no part in the
    predictions of the regression: two arrays with the same rows that
    differ only in such features get equal predictions. *)
Theorem lasso_predict_ignores_zero_coefficients (l : LassoCV)
  (X X' : ndarray) (y y' : list Q) :
  lasso_predict l X = Some y -> lasso_predict l X' = Some y' ->
  n_samples X = n_samples X' ->
  (forall j, (j < length (coef_ l))%nat ->
     nth j (features X) [] = nth j (features X') []
     \/ (nth j (coef_ l) 0 == 0)%Q) ->
  Forall2 Qeq y y'.
Proof.
  unfold lasso_predict, n_features. intros H H' Hn Hz.
  destruct (Nat.eqb_spec (length (features X)) (length (coef_ l))) as [E|];
    [|discriminate].
  destruct (Nat.eqb_spec (length (features X')) (length (coef_ l))) as [E'|];
    [|discriminate].
  apply Some_inj in H, H'. subst y y'. rewrite <- Hn.
  apply Forall2_map_seq. intros i. cbv beta. rewrite !Qred_correct.
  now rewrite (@weighted_sum_ignores_zero i _ _ _ E E' Hz).
Qed.

(** Two features, the second with a coefficient of zero, and two arrays
    that differ in the second feature only. *)
Lemma lasso_predict_ignores_zero_coefficients_witness :
  let l := {| alpha_ := 1; coef_ := [2; 0]%Q; intercept_ := 3 |} in
  let X := {| n_samples := 2; features := [[1; 2]; [5; 6]]%Q |} in
  let X' := {| n_samples := 2; features := [[1; 2]; [9; 9]]%Q |} in
  lasso_predict l X = Some [5; 7]%Q
  /\ lasso_predict l X' = Some [5; 7]%Q
  /\ Forall2 Qeq [5; 7]%Q [5; 7]%Q.
Proof.
  intros l X X'.
  assert (H : lasso_predict l X = Some [5; 7]%Q) by reflexivity.
  assert (H' : lasso_predict l X' = Some [5; 7]%Q) by reflexivity.
  split; [exact H|]. split; [exact H'|].
  apply (@lasso_predict_ignores_zero_coefficients l X X' _ _ H H' eq_refl).
  intros j Hj. destruct j as [|[|j]].
  - left. reflexivity.
  - right. reflexivity.
  - simpl in Hj. lia.
Defined.

(** ** Sizes and partitions of the split *)

Lemma validate_shuffle_split_sum n t n_train n_test :
  validate_shuffle_split n t = Some (n_train, n_test) ->
  (n_train + n_test = n)%nat /\ (1 <= n_train)%nat.
Proof.
  unfold validate_shuffle_split. intros H.
  destruct (Qle_bool t 0 || Qle_bool 1 t); [discriminate|].
  destruct (Nat.eqb_spec (n - Z.to_nat (Qceiling (t * Qof_nat n))) 0)
    as [|Hne]; [discriminate|].
  injection H as <- <-. lia.
Qed.

(** X17.  When the sizes of a split are accepted, the held-out fraction
    lies strictly between 0 and 1, the two sizes add up to the number of
    rows, and both partitions hold a row at least. *)
Theorem validate_shuffle_split_sizes (n : nat) (t : Q) (n_train n_test : nat) :
  validate_shuffle_split n t = Some (n_train, n_test) ->
  (0 < t < 1)%Q
  /\ (n_train + n_test = n)%nat
  /\ (1 <= n_train)%nat /\ (1 <= n_test)%nat.
Proof.
  unfold validate_shuffle_split. intros H.
  destruct (Qle_bool t 0) eqn:E0; [discriminate|].
  destruct (Qle_bool 1 t) eqn:E1; [discriminate|]. simpl in H.
  assert (Ht0 : (0 < t)%Q).
  { apply Qnot_le_lt. intros Hle. apply Qle_bool_iff in Hle. congruence. }
  assert (Ht1 : (t < 1)%Q).
  { apply Qnot_le_lt. intros Hle. apply Qle_bool_iff in Hle. congruence. }
  set (c := Qceiling (t * Qof_nat n)) in *.
  destruct (Nat.eqb_spec (n - Z.to_nat c) 0) as [|Hne]; [discriminate|].
  injection H as <- <-.
  assert (Hn : (1 <= n)%nat) by lia.
  assert (Hpos : (0 < t * Qof_nat n)%Q).
  { apply Qmult_lt_0_compat; [exact Ht0 | apply Qof_nat_pos; lia]. }
  pose proof (Qle_ceiling (t * Qof_nat n)) as Hup. fold c in Hup.
  assert (Hc : (1 <= c)%Z).
  { assert (H0 : (0 < inject_Z c)%Q) by lra.
    change 0%Q with (inject_Z 0) in H0. rewrite <- Zlt_Qlt in H0. lia. }
  split; [split; assumption|]. clearbody c.
  split. { lia. } split; lia.
Qed.

(** The sizes of the notebook: 1024 rows, a tenth held out. *)
Lemma validate_shuffle_split_sizes_witness :
  validate_shuffle_split 1024 (1 # 10) = Some (921, 103)%nat
  /\ (0 < 1 # 10 < 1)%Q
  /\ (921 + 103 = 1024)%nat.
Proof.
  assert (H : validate_shuffle_split 1024 (1 # 10) = Some (921, 103)%nat)
    by (vm_compute; reflexivity).
  split; [exact H|].
  destruct (validate_shuffle_split_sizes _ _ H) as (Ht & Hs & _).
  split; [exact Ht | exact Hs].
Defined.

Lemma take_app {A} i1 i2 (a b1 b2 : list A) :
  take i1 a = Some b1 -> take i2 a = Some b2 ->
  take (i1 ++ i2) a = Some (b1 ++ b2).
Proof.
  revert b1. induction i1 as [|i i1 IH]; simpl; intros b1 H1 H2.
  - now injection H1 as <-.
  - destruct (nth_error a i); [|discriminate].
    destruct (take i1 a) as [xs|]; [|discriminate].
    injection H1 as <-. now rewrite (IH xs eq_refl H2).
Qed.

Lemma take_map_nth_error {A} idx (a b : list A) :
  take idx a = Some b -> map (nth_error a) idx = map Some b.
Proof.
  revert b. induction idx as [|i idx IH]; simpl; intros b H.
  - now injection H as <-.
  - destruct (nth_error a i) eqn:E; [|discriminate].
    destruct (take idx a) as [xs|]; [|discriminate].
    injection H as <-. simpl. now rewrite (IH xs eq_refl).
Qed.

Lemma map_nth_error_seq {A} (a : list A) :
  map (nth_error a) (seq 0 (length a)) = map Some a.
Proof.
  induction a as [|x a IH]; simpl; [reflexivity|].
  f_equal. rewrite <- seq_shift, map_map. exact IH.
Qed.

Lemma map_Some_inj {A} (l l' : list A) : map Some l = map Some l' -> l = l'.
Proof.
  revert l'. induction l as [|x l IH]; intros [|y l'] H;
    try discriminate; [reflexivity|].
  simpl in H. injection H as -> H. f_equal. now apply IH.
Qed.

(** Taking the entries of a list in a permuted order permutes the list. *)
Lemma take_Permutation {A} idx (a b : list A) :
  Permutation idx (seq 0 (length a)) -> take idx a = Some b ->
  Permutation b a.
Proof.
  intros Hp H. apply take_map_nth_error in H.
  apply (Permutation_map (nth_error a)) in Hp.
  rewrite H, map_nth_error_seq in Hp.
  apply Permutation_sym, Permutation_map_inv in Hp.
  destruct Hp as [l3 [Heq Hp]]. apply map_Some_inj in Heq. subst l3.
  now apply Permutation_sym.
Qed.

(** The positions a completed split took its two partitions at. *)
Lemma train_test_split_positions {np : Numpy} {A} (data : list A) desc t g
  train_data test_data train_desc test_desc g' :
  train_test_split data desc t g
  = Some (train_data, test_data, train_desc, test_desc, g') ->
  exists ind_train ind_test,
    Permutation (ind_test ++ ind_train) (seq 0 (length data))
    /\ len desc = length data
    /\ validate_shuffle_split (length data) t
       = Some (length ind_train, length ind_test)
    /\ take ind_train data = Some train_data
    /\ take ind_test data = Some test_data
    /\ iloc ind_train desc = Some train_desc
    /\ iloc ind_test desc = Some test_desc.
Proof.
  intros H.
  assert (Hlen : len desc = length data).
  { unfold train_test_split in H.
    destruct (Nat.eqb_spec (length data) (len desc)) as [->|];
      [reflexivity | discriminate]. }
  apply train_test_split_inv in H.
  destruct H as (n_train & n_test & perm & Hv & Hp & H1 & H2 & H3 & H4).
  pose proof (validate_shuffle_split_sum _ _ Hv) as [Hsum _].
  assert (Hperm : Permutation perm (seq 0 (length data))).
  { replace perm with (fst (permutation (length data) g)) by now rewrite Hp.
    apply permutation_spec. }
  assert (Hpl : length perm = length data).
  { rewrite (Permutation_length Hperm). apply length_seq. }
  assert (Htr : firstn n_train (skipn n_test perm) = skipn n_test perm).
  { apply firstn_all2. rewrite length_skipn. lia. }
  rewrite Htr in *.
  exists (skipn n_test perm), (firstn n_test perm).
  rewrite firstn_skipn, length_skipn, length_firstn.
  replace (length perm - n_test)%nat with n_train by lia.
  replace (Nat.min n_test (length perm)) with n_test by lia.
  auto 10.
Qed.

(** X19.  A completed split puts every record in one partition exactly:
    the held-out records followed by the training records are a
    rearrangement of the records, and likewise for the row labels of the
    two descriptor frames; each frame has as many rows as the records of
    its partition, the sizes being those [validate_shuffle_split]
    accepted. *)
Theorem train_test_split_partition {np : Numpy} {A} (data : list A)
  (desc : DataFrame) (t : Q) (g g' : RandomState)
  (train_data test_data : list A) (train_desc test_desc : DataFrame) :
  train_test_split data desc t g
  = Some (train_data, test_data, train_desc, test_desc, g') ->
  validate_shuffle_split (length data) t
  = Some (length train_data, length test_data)
  /\ len train_desc = length train_data
  /\ len test_desc = length test_data
  /\ Permutation (test_data ++ train_data) data
  /\ Permutation (index test_desc ++ index train_desc) (index desc).
Proof.
  intros H. apply train_test_split_positions in H.
  destruct H as (ind_train & ind_test & Hperm & Hlen & Hv & H1 & H2 & H3 & H4).
  rewrite <- (take_length _ _ H1), <- (take_length _ _ H2) in Hv.
  split; [exact Hv|].
  split; [rewrite (iloc_len _ _ H3); symmetry; eapply take_length; eauto|].
  split; [rewrite (iloc_len _ _ H4); symmetry; eapply take_length; eauto|].
  split.
  - apply (take_Permutation (idx := ind_test ++ ind_train)); [exact Hperm|].
    now apply take_app.
  - unfold iloc in H3, H4.
    destruct (take ind_train (index desc)) as [i3|] eqn:E3; [|discriminate].
    destruct (take_columns ind_train (columns desc)); [|discriminate].
    destruct (take ind_test (index desc)) as [i4|] eqn:E4; [|discriminate].
    destruct (take_columns ind_test (columns desc)); [|discriminate].
    injection H3 as <-. injection H4 as <-. simpl.
    apply (take_Permutation (idx := ind_test ++ ind_train)).
    + unfold len in Hlen. now rewrite Hlen.
    + now apply take_app.
Qed.

(** Four records and their two descriptors, a quarter held out, the
    generator as [np.random.seed(128)] leaves it. *)
Lemma train_test_split_partition_witness :
  let data := firstn 4 Demo.qm9 in
  let desc :=
    {| index := [10; 11; 12; 13]%Z;
       columns := [("nC"%string, [Num 1; Num 2; Num 2; Num 1]);
                   ("nO"%string, [Num 0; Num 0; Num 1; Num 1])] |} in
  exists train_data test_data train_desc test_desc g',
    @train_test_split Demo.numpy _ data desc (1 # 4) (Mtrand.mt19937_seed 128)
    = Some (train_data, test_data, train_desc, test_desc, g')
    /\ map label test_data = [13]%Z
    /\ Permutation (test_data ++ train_data) data
    /\ Permutation (index test_desc ++ index train_desc) (index desc).
Proof.
  intros data desc.
  assert (H : option_map (fun r => map label (snd (fst (fst (fst r)))))
                (@train_test_split Demo.numpy _ data desc (1 # 4)
                   (Mtrand.mt19937_seed 128))
              = Some [13]%Z) by (vm_compute; reflexivity).
  destruct (@train_test_split Demo.numpy _ data desc (1 # 4)
              (Mtrand.mt19937_seed 128))
    as [[[[[train_data test_data] train_desc] test_desc] g']|] eqn:E;
    [|discriminate].
  simpl in H. injection H as H.
  exists train_data, test_data, train_desc, test_desc, g'.
  split; [reflexivity|]. split; [exact H|].
  exact (proj2 (proj2 (proj2 (train_test_split_partition _ _ _ _ E)))).
Defined.

(** ** When the split returns *)

(** X18.  On a well-formed frame the split returns exactly when the
    records and the frame have the same number of rows and the sizes are
    accepted. *)
Theorem train_test_split_returns {np : Numpy} {A} (data : list A)
  (desc : DataFrame) (t : Q) (g : RandomState) :
  frame_rows (len desc) desc ->
  returned (train_test_split data desc t g)
  = ((length data =? len desc)%nat
     && returned (validate_shuffle_split (length data) t)).
Proof.
  intros Hrows.
  destruct (Nat.eqb_spec (length data) (len desc)) as [E|E].
  - destruct (validate_shuffle_split (length data) t) as [[n_train n_test]|]
      eqn:Ev.
    + rewrite <- E in Hrows.
      destruct (train_test_split_total data t g Hrows Ev) as (r & g' & ->).
      reflexivity.
    + unfold train_test_split. rewrite E, Nat.eqb_refl. simpl negb. cbv iota.
      unfold bind at 1. rewrite <- E, Ev. reflexivity.
  - unfold train_test_split.
    destruct (Nat.eqb_spec (length data) (len desc)) as [|_]; [contradiction|].
    reflexivity.
Qed.

(** A frame of four rows: split with its four records, with three
    records, and with everything held out. *)
Lemma train_test_split_returns_witness :
  let desc :=
    {| index := [10; 11; 12; 13]%Z;
       columns := [("nC"%string, [Num 1; Num 2; Num 2; Num 1])] |} in
  returned (@train_test_split Demo.numpy _ (firstn 4 Demo.qm9) desc (1 # 4)
              (Mtrand.mt19937_seed 128)) = true
  /\ returned (@train_test_split Demo.numpy _ (firstn 3 Demo.qm9) desc (1 # 4)
                 (Mtrand.mt19937_seed 128)) = false
  /\ returned (@train_test_split Demo.numpy _ (firstn 4 Demo.qm9) desc 1
                 (Mtrand.mt19937_seed 128)) = false.
Proof.
  intros desc.
  assert (Hrows : frame_rows (len desc) desc)
    by (split; [reflexivity | repeat constructor]).
  rewrite !(@train_test_split_returns Demo.numpy _ _ desc _ _ Hrows).
  repeat split.
Defined.

(** ** Completed runs *)

Lemma check_array_inv df X :
  check_array df = Some X ->
  (1 <= len df)%nat /\ (1 <= length (columns df))%nat
  /\ n_samples X = len df /\ n_features X = length (columns df).
Proof.
  unfold check_array. intros H.
  destruct (Nat.eqb_spec (len df) 0) as [|H1]; [discriminate|].
  destruct (Nat.eqb_spec (length (columns df)) 0) as [|H2]; [discriminate|].
  simpl in H.
  destruct (traverse (fun '(_, s) => traverse as_float s) (columns df))
    as [cols|] eqn:E; [|discriminate].
  injection H as <-. unfold n_features. simpl.
  rewrite (traverse_length _ _ E). repeat split; lia.
Qed.

Section RunFacts.

Context {pd : Pandas} {np : Numpy} {sk : Sklearn}.
Context {rdkit : RDKit} {mordred : Mordred}.

(** What a completed fit of the pipeline did, step by step. *)
Lemma pipeline_fit_steps model0 X y g model1 g' :
  pipeline_fit model0 X y g = Some (model1, g') ->
  exists X0 X1 X2 p l g1,
    check_array X = Some X0
    /\ scaler_fit_transform X0 = Some (X1, scaler_fit X0)
    /\ pca_fit_transform (pca__n_components model0) X1 g = Some (X2, p, g1)
    /\ lasso_fit X2 y g1 = Some (l, g')
    /\ model1 = {| pca__n_components := pca__n_components model0;
                   steps := Some (scaler_fit X0, p, l) |}.
Proof.
  unfold pipeline_fit. intros H.
  step_lift H X0 E1. step_lift H a E2. destruct a as [X1 sc].
  step H b g1 E3. destruct b as [X2 p]. step H l g2 E4.
  apply ret_Some in H. destruct H as [-> ->].
  pose proof (scaler_fit_transform_inv _ E2). subst sc.
  exists X0, X1, X2, p, l, g1. auto.
Qed.

(** A prediction holds one value per row of the frame it is made on. *)
Lemma pipeline_predict_length model0 X y model1 :
  pipeline_predict model0 X = Some (y, model1) ->
  length y = len X /\ pca__n_components model1 = pca__n_components model0.
Proof.
  unfold pipeline_predict. intros H.
  destruct (steps model0) as [[[sc p] l]|]; [|discriminate].
  destruct (check_array X) as [X0|] eqn:E0; [|discriminate].
  apply check_array_inv in E0. destruct E0 as (_ & _ & Hn & _).
  unfold scaler_transform in H.
  destruct (n_features X0 =? _)%nat; [|discriminate].
  unfold pca_transform in H. simpl in H.
  destruct (_ =? length (pca_mean_ p))%nat; [|discriminate].
  unfold lasso_predict in H. simpl in H.
  destruct (_ =? length (coef_ l))%nat; [|discriminate].
  injection H as <- <-. simpl. now rewrite length_map, length_seq.
Qed.

Lemma np_random_seed_inv s g u g' :
  np_random_seed s g = Some (u, g') -> (0 <= s < 2 ^ 32)%Z.
Proof.
  unfold np_random_seed.
  destruct (Z.leb_spec 0 s); destruct (Z.ltb_spec s (2 ^ 32));
    simpl; try discriminate. auto.
Qed.

Lemma cells_seed_range seed_value n_sample k k' test_size qm9 g r :
  cells seed_value n_sample k k' test_size qm9 g = Some r ->
  (0 <= seed_value < 2 ^ 32)%Z.
Proof.
  unfold cells. intros H. step H u g0 E0.
  eapply np_random_seed_inv; eauto.
Qed.

End RunFacts.

Lemma take_columns_length idx cols cols' :
  take_columns idx cols = Some cols' -> map fst cols' = map fst cols.
Proof.
  intros H. apply take_columns_Forall2 in H.
  induction H as [|cs cs' cols cols' [Hc _] _ IH]; simpl; [reflexivity|].
  f_equal; [exact Hc | exact IH].
Qed.

(** [iloc] selects rows: the columns stay, under their labels. *)
Lemma iloc_columns idx df df' :
  iloc idx df = Some df' -> map fst (columns df') = map fst (columns df).
Proof.
  unfold iloc. intros H.
  destruct (take idx (index df)); [|discriminate].
  destruct (take_columns idx (columns df)) as [cols|] eqn:E; [|discriminate].
  injection H as <-. simpl. exact (take_columns_length _ _ E).
Qed.

Lemma clean_columns_length parse df :
  (length (columns (clean parse df)) <= length (columns df))%nat.
Proof.
  unfold clean. rewrite drop_missing_columns.
  etransitivity; [apply filter_length_le|]. simpl. rewrite length_map.
  apply filter_length_le.
Qed.

Section CompletedRuns.

Context {pd : Pandas} {np : Numpy} {sk : Sklearn}.
Context {rdkit : RDKit} {mordred : Mordred}.

(** The sizes a completed run went through. *)
Lemma cells_sizes seed_value n_sample k k' test_size qm9 g G g' :
  cells seed_value n_sample k k' test_size qm9 g = Some (G, g') ->
  (n_sample <= length qm9)%nat
  /\ length (data G) = n_sample
  /\ len (desc G) = n_sample
  /\ (1 <= n_sample)%nat
  /\ (1 <= length (columns (desc G)))%nat
  /\ (length (columns (desc G)) <= length (columns (computed G)))%nat
  /\ n_samples (feats G) = n_sample
  /\ n_features (feats G) = length (columns (desc G))
  /\ validate_shuffle_split n_sample test_size
     = Some (length (train_data G), length (test_rows (test_data G)))
  /\ len (train_desc G) = length (train_data G)
  /\ len (test_desc G) = length (test_rows (test_data G))
  /\ length (columns (train_desc G)) = length (columns (desc G)).
Proof.
  intros H. apply cells_inv in H.
  destruct H as (g1 & g2 & g3 & g4 & X & f16 & f8 & gl & Hs & Hm & Hc & Hd
                 & HX & Hsc & Hp & _ & Hsplit & _).
  pose proof (sample_length _ _ _ Hs) as Hn.
  apply sample_inv in Hs. destruct Hs as [Hle _].
  pose proof (calc_pandas_rows _ Hc) as Hrows.
  rewrite Hm in Hrows. unfold parse_molecules in Hrows.
  rewrite length_map, Hn in Hrows.
  destruct (clean_rows parse_float Hrows) as [_ [Hlen _]].
  rewrite <- Hd in Hlen.
  apply check_array_inv in HX. destruct HX as (H1 & H2 & H3 & H4).
  apply scaler_fit_transform_features in Hsc. destruct Hsc as [H5 H6].
  apply train_test_split_positions in Hsplit.
  destruct Hsplit as (ind_train & ind_test & _ & _ & Hv & Ht1 & Ht2 & Hi & Hi2).
  rewrite <- (take_length _ _ Ht1), <- (take_length _ _ Ht2), Hn in Hv.
  pose proof (iloc_len _ _ Hi) as Hl1.
  rewrite <- (take_length _ _ Ht1) in Hl1.
  pose proof (iloc_len _ _ Hi2) as Hl2.
  rewrite <- (take_length _ _ Ht2) in Hl2.
  apply iloc_columns in Hi. apply (f_equal (@length _)) in Hi.
  rewrite !length_map in Hi.
  assert (Hw : (length (columns (desc G)) <= length (columns (computed G)))%nat)
    by (rewrite Hd; apply clean_columns_length).
  unfold n_features. rewrite H6, length_map. fold (n_features X).
  repeat split; try assumption; try lia; congruence.
Qed.

(** The two fits of the pipeline in a completed run. *)
Lemma cells_fits seed_value n_sample k k' test_size qm9 g G g' :
  cells seed_value n_sample k k' test_size qm9 g = Some (G, g') ->
  exists X_train p16 l16 p8 l8,
    check_array (train_desc G) = Some X_train
    /\ model_16 G = {| pca__n_components := k;
                       steps := Some (scaler_fit X_train, p16, l16) |}
    /\ model G = {| pca__n_components := k';
                    steps := Some (scaler_fit X_train, p8, l8) |}
    /\ n_components p16 = k /\ n_components p8 = k'
    /\ (k <= Nat.min (n_samples X_train) (n_features X_train))%nat
    /\ (k' <= Nat.min (n_samples X_train) (n_features X_train))%nat
    /\ length (ncomp16_model (test_data G)) = len (test_desc G)
    /\ length (ncomp8_model (test_data G)) = len (test_desc G).
Proof.
  intros H. apply cells_inv in H.
  destruct H as (g1 & g2 & g3 & g4 & X & f16 & f8 & gl & _ & _ & _ & _
                 & _ & _ & _ & _ & _ & Hf16 & Hp16 & Hf8 & Hp8 & _).
  apply pipeline_fit_steps in Hf16.
  destruct Hf16 as (X0 & X1 & X2 & p & l & gp & HX0 & Hs1 & Hpca1 & _ & ->).
  apply pipeline_fit_steps in Hf8.
  destruct Hf8
    as (X0' & X1' & X2' & p' & l' & gp' & HX0' & Hs2 & Hpca2 & _ & ->).
  rewrite HX0 in HX0'. injection HX0' as <-.
  pose proof (pipeline_predict_inv _ _ Hp16) as Hst16.
  pose proof (pipeline_predict_length _ _ Hp16) as [Hl16 Hk16].
  pose proof (pipeline_predict_inv _ _ Hp8) as Hst8.
  pose proof (pipeline_predict_length _ _ Hp8) as [Hl8 Hk8].
  simpl in *.
  apply scaler_fit_transform_features in Hs1. destruct Hs1 as [Hn1 Hf1].
  apply scaler_fit_transform_features in Hs2. destruct Hs2 as [Hn2 Hf2].
  apply pca_fit_transform_inv in Hpca1. destruct Hpca1 as (Hk1 & Hc1 & _).
  apply pca_fit_transform_inv in Hpca2. destruct Hpca2 as (Hk2 & Hc2 & _).
  assert (Hw1 : n_features X1 = n_features X0)
    by (unfold n_features; now rewrite Hf1, length_map).
  assert (Hw2 : n_features X1' = n_features X0)
    by (unfold n_features; now rewrite Hf2, length_map).
  rewrite Hn1, Hw1 in Hk1. rewrite Hn2, Hw2 in Hk2.
  exists X0, p, l, p', l'.
  repeat split; try assumption.
  - destruct (model_16 G) as [kk st]. simpl in *. congruence.
  - destruct (model G) as [kk st]. simpl in *. subst. reflexivity.
Qed.

End CompletedRuns.

(** X20.  What a run of the notebook that completes rests on: the seed
    fits 32 bits; the dataset holds at least [n_sample] rows; the cell that
    reports the constant features did not divide by zero; a column at least
    survives the cleaning; the sizes of the split are accepted; and each
    number of components asked of a PCA is at most the number of rows and
    the number of columns it is fitted on. *)
Theorem completed_run_requirements {pd : Pandas} {np : Numpy} {sk : Sklearn}
  {rdkit : RDKit} {mordred : Mordred}
  (seed_value : Z) (n_sample k k' : nat) (test_size : Q)
  (qm9 : list MoleculeRecord) (g g' : RandomState) (G : Globals) :
  cells seed_value n_sample k k' test_size qm9 g = Some (G, g') ->
  let width := length (columns (desc G)) in
  let n_train := length (train_data G) in
  let n_test := length (test_rows (test_data G)) in
  (0 <= seed_value < 2 ^ 32)%Z
  /\ (1 <= n_sample <= length qm9)%nat
  /\ (exists report, constant_features (computed G) = Some report)
  /\ (1 <= width)%nat
  /\ (k <= Nat.min n_sample width)%nat
  /\ validate_shuffle_split n_sample test_size = Some (n_train, n_test)
  /\ (k <= Nat.min n_train width)%nat
  /\ (k' <= Nat.min n_train width)%nat.
Proof.
  intros H. cbv zeta.
  pose proof (cells_seed_range _ _ _ _ _ _ _ H) as Hseed.
  pose proof (cells_sizes _ _ _ _ _ _ _ H)
    as (Hle & Hn & Hlen & H1 & Hw & Hwc & Hfs & Hff & Hv & Hl1 & Hl2 & Hcw).
  pose proof (cells_fits _ _ _ _ _ _ _ H)
    as (X_train & p16 & l16 & p8 & l8 & HX & _ & _ & _ & _ & Hk & Hk' & _).
  apply check_array_inv in HX. destruct HX as (_ & _ & Hs & Hf).
  rewrite Hs, Hf, Hl1, Hcw in Hk, Hk'.
  apply cells_inv in H.
  destruct H as (g1 & g2 & g3 & g4 & X & f16 & f8 & gl & _ & _ & _ & _
                 & _ & _ & Hp & _).
  apply pca_fit_transform_inv in Hp. destruct Hp as (Hkp & _).
  rewrite Hfs, Hff in Hkp.
  split; [exact Hseed|]. split; [lia|]. split.
  - unfold constant_features, true_divide.
    destruct (Nat.eqb_spec (length (columns (computed G))) 0); [lia | eauto].
  - auto.
Qed.

(** X22.  In a completed run there is a held-out row at least, both
    prediction columns hold one value per held-out row, and the last cell
    computes one score for each of the two columns. *)
Theorem predictions_per_held_out_row {pd : Pandas} {np : Numpy} {sk : Sklearn}
  {rdkit : RDKit} {mordred : Mordred}
  (seed_value : Z) (n_sample k k' : nat) (test_size : Q)
  (qm9 : list MoleculeRecord) (g g' : RandomState) (G : Globals) :
  cells seed_value n_sample k k' test_size qm9 g = Some (G, g') ->
  let n_test := length (test_rows (test_data G)) in
  (1 <= n_test)%nat
  /\ len (test_desc G) = n_test
  /\ length (ncomp16_model (test_data G)) = n_test
  /\ length (ncomp8_model (test_data G)) = n_test
  /\ exists r8 r16,
       r2 G = [("8-ncomp-model"%string, r8); ("16-ncomp-model"%string, r16)].
Proof.
  intros H. cbv zeta.
  pose proof (cells_sizes _ _ _ _ _ _ _ H)
    as (_ & _ & _ & _ & _ & _ & _ & _ & Hv & _ & Hl2 & _).
  pose proof (cells_fits _ _ _ _ _ _ _ H)
    as (X_train & p16 & l16 & p8 & l8 & _ & _ & _ & _ & _ & _ & _ & Hy16 & Hy8).
  apply cells_inv in H.
  destruct H as (g1 & g2 & g3 & g4 & X & f16 & f8 & gl & _ & _ & _ & _
                 & _ & _ & _ & _ & _ & _ & _ & _ & _ & Hr).
  assert (Hn : (1 <= length (test_rows (test_data G)))%nat).
  { unfold validate_shuffle_split in Hv.
    destruct (Qle_bool test_size 0) eqn:E0; [discriminate|].
    destruct (Qle_bool 1 test_size); [discriminate|]. simpl in Hv.
    destruct (Nat.eqb_spec
                (n_sample - Z.to_nat (Qceiling (test_size * Qof_nat n_sample)))
                0) as [|Hne]; [discriminate|].
    injection Hv as _ Hv. rewrite <- Hv.
    assert (Ht0 : (0 < test_size)%Q).
    { apply Qnot_le_lt. intros Hle. apply Qle_bool_iff in Hle. congruence. }
    assert (Hpos : (0 < test_size * Qof_nat n_sample)%Q).
    { apply Qmult_lt_0_compat; [exact Ht0 | apply Qof_nat_pos; lia]. }
    pose proof (Qle_ceiling (test_size * Qof_nat n_sample)) as Hup.
    assert (H0 : (0 < inject_Z (Qceiling (test_size * Qof_nat n_sample)))%Q)
      by lra.
    change 0%Q with (inject_Z 0) in H0. rewrite <- Zlt_Qlt in H0. lia. }
  repeat split; try congruence.
  unfold compare_models in Hr.
  destruct (r2_score (ncomp8_model (test_data G)) _) as [r8|]; [|discriminate].
  destruct (r2_score (ncomp16_model (test_data G)) _) as [r16|];
    [|discriminate].
  injection Hr as <-. eauto.
Qed.

(** X21.  In a completed run the stand-alone PCA and the pipeline as it
    stands after the first fit keep [k] components, the pipeline after
    [set_params] and the second fit keeps [k'], and the reduced array has
    at most [k] features. *)
Theorem pipeline_component_counts {pd : Pandas} {np : Numpy} {sk : Sklearn}
  {rdkit : RDKit} {mordred : Mordred}
  (seed_value : Z) (n_sample k k' : nat) (test_size : Q)
  (qm9 : list MoleculeRecord) (g g' : RandomState) (G : Globals) :
  cells seed_value n_sample k k' test_size qm9 g = Some (G, g') ->
  n_components (pca G) = k
  /\ (n_features (pca_feats G) <= k)%nat
  /\ pca__n_components (model_16 G) = k
  /\ (exists sc p l, steps (model_16 G) = Some (sc, p, l)
                     /\ n_components p = k)
  /\ pca__n_components (model G) = k'
  /\ (exists sc p l, steps (model G) = Some (sc, p, l)
                     /\ n_components p = k').
Proof.
  intros H.
  pose proof (cells_fits _ _ _ _ _ _ _ H)
    as (X_train & p16 & l16 & p8 & l8 & _ & H16 & H8 & Hc16 & Hc8 & _).
  apply cells_inv in H.
  destruct H as (g1 & g2 & g3 & g4 & X & f16 & f8 & gl & _ & _ & _ & _
                 & _ & _ & Hp & _).
  apply pca_fit_transform_inv in Hp. destruct Hp as (_ & Hn & _ & Hf & _).
  rewrite H16, H8. simpl.
  split; [exact Hn|]. split; [exact Hf|]. split; [reflexivity|].
  split; [eauto 6|]. split; [reflexivity | eauto 6].
Qed.

(** X26.  When a completed run held out a single row, both reported
    scores are NaN. *)
Theorem single_held_out_row_scores_nan {pd : Pandas} {np : Numpy}
  {sk : Sklearn} {rdkit : RDKit} {mordred : Mordred}
  (seed_value : Z) (n_sample k k' : nat) (test_size : Q)
  (qm9 : list MoleculeRecord) (g g' : RandomState) (G : Globals) :
  cells seed_value n_sample k k' test_size qm9 g = Some (G, g') ->
  length (test_rows (test_data G)) = 1%nat ->
  r2 G = [("8-ncomp-model"%string, FNaN); ("16-ncomp-model"%string, FNaN)].
Proof.
  intros H Hone.
  pose proof (cells_sizes _ _ _ _ _ _ _ H)
    as (_ & _ & _ & _ & _ & _ & _ & _ & _ & _ & Hl2 & _).
  pose proof (cells_fits _ _ _ _ _ _ _ H)
    as (X_train & p16 & l16 & p8 & l8 & _ & _ & _ & _ & _ & _ & _ & Hy16 & Hy8).
  apply cells_inv in H.
  destruct H as (g1 & g2 & g3 & g4 & X & f16 & f8 & gl & _ & _ & _ & _
                 & _ & _ & _ & _ & _ & _ & _ & _ & _ & Hr).
  unfold compare_models, r2_score in Hr.
  rewrite length_map, Hy16, Hy8, Hl2, Hone in Hr. simpl in Hr.
  now injection Hr as <-.
Qed.

(** The run on the eight example molecules, a quarter held out, and the
    same run with one row held out. *)
Lemma demo_run_completes :
  exists G g',
    @cells Demo.pandas Demo.numpy Demo.sklearn Demo.rdkit Demo.mordred
           128 8 2 1 (1 # 4) Demo.qm9 (Mtrand.mt19937_seed 0)
    = Some (G, g').
Proof.
  assert (Hrun : returned
                   (@cells Demo.pandas Demo.numpy Demo.sklearn
                      Demo.rdkit Demo.mordred
                      128 8 2 1 (1 # 4) Demo.qm9 (Mtrand.mt19937_seed 0))
                 = true) by (vm_compute; reflexivity).
  destruct (@cells Demo.pandas Demo.numpy Demo.sklearn
                   Demo.rdkit Demo.mordred
                   128 8 2 1 (1 # 4) Demo.qm9 (Mtrand.mt19937_seed 0))
    as [[G g']|]; [eauto | discriminate Hrun].
Qed.

Lemma demo_run_one_held_out_completes :
  exists G g',
    @cells Demo.pandas Demo.numpy Demo.sklearn Demo.rdkit Demo.mordred
           128 8 2 1 (1 # 8) Demo.qm9 (Mtrand.mt19937_seed 0)
    = Some (G, g').
Proof.
  assert (Hrun : returned
                   (@cells Demo.pandas Demo.numpy Demo.sklearn
                      Demo.rdkit Demo.mordred
                      128 8 2 1 (1 # 8) Demo.qm9 (Mtrand.mt19937_seed 0))
                 = true) by (vm_compute; reflexivity).
  destruct (@cells Demo.pandas Demo.numpy Demo.sklearn
                   Demo.rdkit Demo.mordred
                   128 8 2 1 (1 # 8) Demo.qm9 (Mtrand.mt19937_seed 0))
    as [[G g']|]; [eauto | discriminate Hrun].
Qed.

(** The run on the eight example molecules: six training rows, two
    components asked. *)
Lemma completed_run_requirements_witness :
  exists G g',
    @cells Demo.pandas Demo.numpy Demo.sklearn Demo.rdkit Demo.mordred
           128 8 2 1 (1 # 4) Demo.qm9 (Mtrand.mt19937_seed 0)
    = Some (G, g')
    /\ validate_shuffle_split 8 (1 # 4)
       = Some (length (train_data G), length (test_rows (test_data G)))
    /\ (2 <= Nat.min (length (train_data G)) (length (columns (desc G))))%nat.
Proof.
  destruct demo_run_completes as (G & g' & E).
  exists G, g'. split; [exact E|].
  pose proof (@completed_run_requirements _ _ _ _ _ _ _ _ _ _ _ _ _ _ E) as H.
  cbv zeta in H. tauto.
Defined.

(** The same run: two held-out rows, two predictions in each column. *)
Lemma predictions_per_held_out_row_witness :
  exists G g',
    @cells Demo.pandas Demo.numpy Demo.sklearn Demo.rdkit Demo.mordred
           128 8 2 1 (1 # 4) Demo.qm9 (Mtrand.mt19937_seed 0)
    = Some (G, g')
    /\ length (ncomp16_model (test_data G)) = length (test_rows (test_data G))
    /\ length (ncomp8_model (test_data G)) = length (test_rows (test_data G)).
Proof.
  destruct demo_run_completes as (G & g' & E).
  exists G, g'. split; [exact E|].
  pose proof (@predictions_per_held_out_row _ _ _ _ _ _ _ _ _ _ _ _ _ _ E)
    as H.
  cbv zeta in H. tauto.
Defined.

(** The same run: two components, then one. *)
Lemma pipeline_component_counts_witness :
  exists G g',
    @cells Demo.pandas Demo.numpy Demo.sklearn Demo.rdkit Demo.mordred
           128 8 2 1 (1 # 4) Demo.qm9 (Mtrand.mt19937_seed 0)
    = Some (G, g')
    /\ pca__n_components (model_16 G) = 2%nat
    /\ pca__n_components (model G) = 1%nat.
Proof.
  destruct demo_run_completes as (G & g' & E).
  exists G, g'. split; [exact E|].
  pose proof (@pipeline_component_counts _ _ _ _ _ _ _ _ _ _ _ _ _ _ E) as H.
  tauto.
Defined.

(** The run on the eight example molecules with an eighth held out. *)
Lemma single_held_out_row_scores_nan_witness :
  exists G g',
    @cells Demo.pandas Demo.numpy Demo.sklearn Demo.rdkit Demo.mordred
           128 8 2 1 (1 # 8) Demo.qm9 (Mtrand.mt19937_seed 0)
    = Some (G, g')
    /\ length (test_rows (test_data G)) = 1%nat
    /\ r2 G = [("8-ncomp-model"%string, FNaN);
               ("16-ncomp-model"%string, FNaN)].
Proof.
  destruct demo_run_one_held_out_completes as (G & g' & E).
  exists G, g'. split; [exact E|].
  assert (Hone : length (test_rows (test_data G)) = 1%nat).
  { pose proof (cells_sizes _ _ _ _ _ _ _ E)
      as (_ & _ & _ & _ & _ & _ & _ & _ & Hv & _).
    assert (Hc : validate_shuffle_split 8 (1 # 8) = Some (7, 1)%nat)
      by (vm_compute; reflexivity).
    rewrite Hc in Hv. now injection Hv as _ <-. }
  split; [exact Hone|].
  exact (@single_held_out_row_scores_nan _ _ _ _ _ _ _ _ _ _ _ _ _ _ E Hone).
Defined.

(** ** Molecules and their rows *)

Lemma take_map {A B} (f : A -> B) idx (a b : list A) :
  take idx a = Some b -> take idx (map f a) = Some (map f b).
Proof.
  revert b. induction idx as [|i idx IH]; simpl; intros b H.
  - now injection H as <-.
  - rewrite nth_error_map.
    destruct (nth_error a i) as [x|]; [|discriminate].
    destruct (take idx a) as [xs|]; [|discriminate].
    injection H as <-. now rewrite (IH xs eq_refl).
Qed.

Lemma iloc_index idx df df' :
  iloc idx df = Some df' -> take idx (index df) = Some (index df').
Proof.
  unfold iloc. intros H.
  destruct (take idx (index df)) as [ix|]; [|discriminate].
  destruct (take_columns idx (columns df)); [|discriminate].
  now injection H as <-.
Qed.

(** Entries taken at distinct positions of a list without repeats do not
    repeat. *)
Lemma take_NoDup {A} idx (a b : list A) :
  NoDup a -> NoDup idx -> take idx a = Some b -> NoDup b.
Proof.
  intros Ha Hidx. revert b.
  induction Hidx as [|i idx Hi _ IH]; simpl; intros b H.
  - injection H as <-. constructor.
  - destruct (nth_error a i) as [x|] eqn:Ex; [|discriminate].
    destruct (take idx a) as [xs|] eqn:Et; [|discriminate].
    injection H as <-. constructor; [|now apply IH].
    intros Hx. apply In_nth_error in Hx. destruct Hx as [k Hk].
    assert (Hlt : (k < length idx)%nat).
    { rewrite <- (take_length _ _ Et). apply nth_error_Some. congruence. }
    destruct (nth_error idx k) as [j|] eqn:Ej;
      [|apply nth_error_None in Ej; lia].
    destruct (take_nth_error _ _ _ Et Ej) as [x' [Hx1 Hx2]].
    rewrite Hk in Hx1. injection Hx1 as <-.
    assert (i = j).
    { apply (proj1 (NoDup_nth_error a) Ha).
      - apply nth_error_Some. congruence.
      - congruence. }
    subst j. apply Hi. eapply nth_error_In; eauto.
Qed.

Section Labels.

Context {pd : Pandas} {np : Numpy} {sk : Sklearn}.
Context {rdkit : RDKit} {mordred : Mordred}.

(** The row labels of the frames of a completed run. *)
Lemma cells_labels seed_value n_sample k k' test_size qm9 g G g' :
  cells seed_value n_sample k k' test_size qm9 g = Some (G, g') ->
  index (computed G) = map label (data G)
  /\ index (desc G) = map label (data G)
  /\ index (train_desc G) = map label (train_data G)
  /\ index (test_desc G) = map label (test_rows (test_data G)).
Proof.
  intros H. apply cells_inv in H.
  destruct H as (g1 & g2 & g3 & g4 & X & f16 & f8 & gl & _ & Hm & Hc & Hd
                 & _ & _ & _ & _ & Hsplit & _).
  assert (Hi : index (computed G) = map label (data G)).
  { destruct (calc_pandas_inv _ Hc) as [ms [_ [-> _]]].
    rewrite Hm. unfold parse_molecules. now rewrite map_map. }
  assert (Hi' : index (desc G) = map label (data G)) by now rewrite Hd.
  split; [exact Hi|]. split; [exact Hi'|].
  apply train_test_split_positions in Hsplit.
  destruct Hsplit as (ind_train & ind_test & _ & _ & _ & H1 & H2 & H3 & H4).
  apply iloc_index in H3, H4. rewrite Hi' in H3, H4.
  rewrite (take_map label _ _ H1) in H3.
  rewrite (take_map label _ _ H2) in H4.
  split; congruence.
Qed.

End Labels.

(** X29.  In a completed run every frame is aligned with its records by
    row label: the descriptor frame, before and after cleaning, carries the
    labels of the sampled records in order, and each partition of it
    carries the labels of the records of that partition, in order. *)
Theorem partitions_keep_labels {pd : Pandas} {np : Numpy} {sk : Sklearn}
  {rdkit : RDKit} {mordred : Mordred}
  (seed_value : Z) (n_sample k k' : nat) (test_size : Q)
  (qm9 : list MoleculeRecord) (g g' : RandomState) (G : Globals) :
  cells seed_value n_sample k k' test_size qm9 g = Some (G, g') ->
  index (computed G) = map label (data G)
  /\ index (desc G) = map label (data G)
  /\ index (train_desc G) = map label (train_data G)
  /\ index (test_desc G) = map label (test_rows (test_data G))
  /\ map fst (columns (train_desc G)) = map fst (columns (desc G))
  /\ map fst (columns (test_desc G)) = map fst (columns (desc G)).
Proof.
  intros H.
  destruct (cells_labels _ _ _ _ _ _ _ H) as (H1 & H2 & H3 & H4).
  apply cells_inv in H.
  destruct H as (g1 & g2 & g3 & g4 & X & f16 & f8 & gl & _ & _ & _ & _
                 & _ & _ & _ & _ & Hsplit & _).
  apply train_test_split_inv in Hsplit.
  destruct Hsplit as (n_train & n_test & perm & _ & _ & _ & _ & Htr & Hte).
  apply iloc_columns in Htr, Hte. auto 10.
Qed.

(** The run on the eight example molecules. *)
Lemma partitions_keep_labels_witness :
  exists G g',
    @cells Demo.pandas Demo.numpy Demo.sklearn Demo.rdkit Demo.mordred
           128 8 2 1 (1 # 4) Demo.qm9 (Mtrand.mt19937_seed 0)
    = Some (G, g')
    /\ index (train_desc G) = map label (train_data G)
    /\ index (test_desc G) = map label (test_rows (test_data G)).
Proof.
  destruct demo_run_completes as (G & g' & E).
  exists G, g'. split; [exact E|].
  pose proof (@partitions_keep_labels _ _ _ _ _ _ _ _ _ _ _ _ _ _ E) as H.
  tauto.
Defined.

(** X30.  When the labels of the dataset are distinct, so are those of the
    sampled records, and no molecule the pipeline is trained on is among
    the held-out ones: the labels of the two partitions, of the records and
    of the descriptor rows alike, do not meet. *)
Theorem held_out_molecules_not_trained_on {pd : Pandas} {np : Numpy}
  {sk : Sklearn} {rdkit : RDKit} {mordred : Mordred}
  (seed_value : Z) (n_sample k k' : nat) (test_size : Q)
  (qm9 : list MoleculeRecord) (g g' : RandomState) (G : Globals) :
  cells seed_value n_sample k k' test_size qm9 g = Some (G, g') ->
  NoDup (map label qm9) ->
  NoDup (map label (data G))
  /\ (forall z, In z (map label (train_data G)) ->
        ~ In z (map label (test_rows (test_data G))))
  /\ (forall z, In z (index (train_desc G)) -> ~ In z (index (test_desc G))).
Proof.
  intros H Hnd.
  destruct (cells_labels _ _ _ _ _ _ _ H) as (_ & _ & H3 & H4).
  apply cells_inv in H.
  destruct H as (g1 & g2 & g3 & g4 & X & f16 & f8 & gl & Hs & _ & _ & _
                 & _ & _ & _ & _ & Hsplit & _).
  apply sample_inv in Hs. destruct Hs as (_ & _ & Hs).
  assert (Hdata : NoDup (map label (data G))).
  { eapply (take_NoDup Hnd);
      [apply NoDup_firstn, permutation_NoDup | apply take_map, Hs]. }
  apply train_test_split_positions in Hsplit.
  destruct Hsplit as (ind_train & ind_test & Hperm & _ & _ & H1 & H2 & _).
  assert (Hp : Permutation (map label (test_rows (test_data G))
                            ++ map label (train_data G))
                           (map label (data G))).
  { rewrite <- map_app. apply Permutation_map.
    apply (take_Permutation (idx := ind_test ++ ind_train)); [exact Hperm|].
    now apply take_app. }
  assert (Hdis : forall z, In z (map label (train_data G)) ->
                           ~ In z (map label (test_rows (test_data G)))).
  { intros z Htr Hte.
    apply (Permutation_NoDup (Permutation_sym Hp)) in Hdata.
    exact (NoDup_app_disjoint _ _ Hdata z Hte Htr). }
  split; [exact Hdata|]. split; [exact Hdis|].
  rewrite H3, H4. exact Hdis.
Qed.

(** The run on the eight example molecules, labelled 10 to 17. *)
Lemma held_out_molecules_not_trained_on_witness :
  exists G g',
    @cells Demo.pandas Demo.numpy Demo.sklearn Demo.rdkit Demo.mordred
           128 8 2 1 (1 # 4) Demo.qm9 (Mtrand.mt19937_seed 0)
    = Some (G, g')
    /\ NoDup (map label (data G))
    /\ (forall z, In z (index (train_desc G)) ->
          ~ In z (index (test_desc G))).
Proof.
  destruct demo_run_completes as (G & g' & E).
  exists G, g'. split; [exact E|].
  assert (Hnd : NoDup (map label Demo.qm9)).
  { simpl. repeat constructor; simpl; intuition discriminate. }
  pose proof (@held_out_molecules_not_trained_on
                _ _ _ _ _ _ _ _ _ _ _ _ _ _ E Hnd) as H.
  tauto.
Defined.

(** ** Predictions, row by row *)

Lemma nth_map_in_range {A} (f : A -> Q) (l : list A) (d : A) i :
  (i < length l)%nat -> nth i (map f l) 0%Q = f (nth i l d).
Proof.
  intros Hi. rewrite (nth_indep _ 0%Q (f d)) by now rewrite length_map.
  apply map_nth.
Qed.

Lemma as_float_nth s col i :
  traverse as_float s = Some col ->
  nth i col 0%Q = match nth i s NaN with Num x => x | _ => 0%Q end.
Proof.
  revert col i. induction s as [|c s IH]; simpl; intros col i H.
  - injection H as <-. now destruct i.
  - destruct c as [x| | |]; try discriminate. simpl in H.
    destruct (traverse as_float s) as [col'|]; [|discriminate].
    injection H as <-. destruct i as [|i]; [reflexivity|]. simpl.
    now apply IH.
Qed.

(** Position [i] of the array made from a frame holds the numbers of row
    [i] of the frame. *)
Lemma check_array_row df X i r :
  check_array df = Some X -> row df i = Some r ->
  (i < n_samples X)%nat
  /\ map (fun col => nth i col 0%Q) (features X)
     = map (fun c => match c with Num x => x | _ => 0%Q end) r.
Proof.
  unfold check_array, row. intros H Hr.
  destruct ((len df =? 0)%nat || (length (columns df) =? 0)%nat);
    [discriminate|].
  destruct (traverse (fun '(_, s) => traverse as_float s) (columns df))
    as [cols|] eqn:E; [|discriminate].
  injection H as <-. simpl.
  destruct (Nat.ltb_spec i (len df)) as [Hi|]; [|discriminate].
  injection Hr as <-. split; [exact Hi|].
  apply traverse_Forall2 in E. rewrite map_map.
  induction E as [|[c s] col cs cols Hs _ IH]; simpl; [reflexivity|].
  now rewrite (as_float_nth _ i Hs), IH.
Qed.

(** Each stage of a prediction works on one row at a time: equal rows in,
    equal rows out. *)
Lemma scale_columns_row cols cols' ms ss i j :
  Forall (fun col => (i < length col)%nat) cols ->
  Forall (fun col => (j < length col)%nat) cols' ->
  map (fun col => nth i col 0%Q) cols = map (fun col => nth j col 0%Q) cols' ->
  map (fun col => nth i col 0%Q) (scale_columns cols ms ss)
  = map (fun col => nth j col 0%Q) (scale_columns cols' ms ss).
Proof.
  intros Hi. revert cols' ms ss.
  induction Hi as [|col cols Hc _ IH]; intros [|col' cols'] ms ss Hj Heq;
    try discriminate; [reflexivity|].
  inversion Hj as [|? ? Hc' Hj']; subst.
  simpl in Heq. injection Heq as Hhd Htl.
  destruct ms as [|mu ms]; [reflexivity|].
  destruct ss as [|s ss]; [reflexivity|].
  cbn [scale_columns map]. unfold scale_column.
  rewrite (nth_map_in_range _ _ 0%Q Hc), (nth_map_in_range _ _ 0%Q Hc'), Hhd.
  f_equal. now apply IH.
Qed.

Lemma combine_row {B} (F : Q -> B -> Q) cols cols' (ws : list B) i j :
  map (fun col => nth i col 0%Q) cols = map (fun col => nth j col 0%Q) cols' ->
  map (fun '(col, w) => F (nth i col 0%Q) w) (combine cols ws)
  = map (fun '(col, w) => F (nth j col 0%Q) w) (combine cols' ws).
Proof.
  revert cols' ws. induction cols as [|col cols IH];
    intros [|col' cols'] ws Heq; try discriminate; [reflexivity|].
  simpl in Heq. injection Heq as Hhd Htl.
  destruct ws as [|w ws]; [reflexivity|]. simpl.
  now rewrite Hhd, (IH _ ws Htl).
Qed.

Lemma project_row X X' mu loadings i j :
  map (fun col => nth i col 0%Q) (features X)
  = map (fun col => nth j col 0%Q) (features X') ->
  project X mu loadings i = project X' mu loadings j.
Proof.
  intros Heq. unfold project. f_equal. f_equal.
  exact (@combine_row _ (fun x '(m, w) => ((x - m) * w)%Q) _ _ _ _ _ Heq).
Qed.

Lemma nth_map_seq (f : nat -> Q) n i :
  (i < n)%nat -> nth i (map f (seq 0 n)) 0%Q = f i.
Proof.
  intros Hi. rewrite (nth_map_in_range f (seq 0 n) 0%nat)
    by now rewrite length_seq.
  now rewrite seq_nth.
Qed.

(** X23.  A fitted pipeline predicts row by row: two rows that hold the
    same values get the same prediction, whatever frames they sit in and
    whatever the other rows are. *)
Theorem predictions_are_row_wise (model : Pipeline) (X X' : DataFrame)
  (y y' : list Q) (model1 model1' : Pipeline) (n n' i j : nat)
  (r : list cell) :
  frame_rows n X -> frame_rows n' X' ->
  pipeline_predict model X = Some (y, model1) ->
  pipeline_predict model X' = Some (y', model1') ->
  row X i = Some r -> row X' j = Some r ->
  exists v, nth_error y i = Some v /\ nth_error y' j = Some v.
Proof.
  intros HX HX' H H' Hr Hr'. unfold pipeline_predict in H, H'.
  destruct (steps model) as [[[sc p] l]|]; [|discriminate].
  destruct (check_array X) as [X0|] eqn:E0; [|discriminate].
  destruct (check_array X') as [X0'|] eqn:E0'; [|discriminate].
  destruct (check_array_row _ _ E0 Hr) as [Hi Hrow].
  destruct (check_array_row _ _ E0' Hr') as [Hj Hrow'].
  destruct (check_array_rows E0 HX) as [Hn Hcols].
  destruct (check_array_rows E0' HX') as [Hn' Hcols'].
  unfold scaler_transform in H, H'.
  destruct (n_features X0 =? _)%nat; [|discriminate].
  destruct (n_features X0' =? _)%nat; [|discriminate].
  unfold pca_transform in H, H'. simpl in H, H'.
  destruct (_ =? length (pca_mean_ p))%nat in H; [|discriminate].
  destruct (_ =? length (pca_mean_ p))%nat in H'; [|discriminate].
  unfold lasso_predict in H, H'. simpl in H, H'.
  destruct (_ =? length (coef_ l))%nat in H; [|discriminate].
  destruct (_ =? length (coef_ l))%nat in H'; [|discriminate].
  injection H as <- _. injection H' as <- _.
  set (X1 := {| n_samples := n_samples X0;
                features := scale_columns (features X0)
                              (mean_ sc) (scale_ sc) |}).
  set (X1' := {| n_samples := n_samples X0';
                 features := scale_columns (features X0')
                               (mean_ sc) (scale_ sc) |}).
  assert (H1 : map (fun col => nth i col 0%Q) (features X1)
               = map (fun col => nth j col 0%Q) (features X1')).
  { apply scale_columns_row.
    - eapply Forall_impl; [|exact Hcols]. simpl. intros col ->. lia.
    - eapply Forall_impl; [|exact Hcols']. simpl. intros col ->. lia.
    - now rewrite Hrow, Hrow'. }
  assert (H2 : map (fun col => nth i col 0%Q)
                 (map (fun loadings =>
                         map (project X1 (pca_mean_ p) loadings)
                             (seq 0 (n_samples X0))) (components_ p))
               = map (fun col => nth j col 0%Q)
                   (map (fun loadings =>
                           map (project X1' (pca_mean_ p) loadings)
                               (seq 0 (n_samples X0'))) (components_ p))).
  { rewrite !map_map. apply map_ext. intros loadings.
    rewrite (nth_map_seq _ Hi), (nth_map_seq _ Hj).
    now apply project_row. }
  rewrite !nth_error_map.
  assert (Ei : nth_error (seq 0 (n_samples X0)) i = Some i).
  { rewrite nth_error_nth' with (d := 0%nat) by now rewrite length_seq.
    now rewrite seq_nth. }
  assert (Ej : nth_error (seq 0 (n_samples X0')) j = Some j).
  { rewrite nth_error_nth' with (d := 0%nat) by now rewrite length_seq.
    now rewrite seq_nth. }
  rewrite Ei, Ej. cbn [option_map].
  pose proof (@combine_row _ (fun x w => (x * w)%Q) _ _ (coef_ l) _ _ H2)
    as H3.
  cbv beta in H3. rewrite H3. eauto.
Qed.

(** A fitted pipeline of one feature and one component, and the row
    that holds 7 in a frame of two rows and in a frame of one. *)
Lemma predictions_are_row_wise_witness :
  let model :=
    {| pca__n_components := 1;
       steps := Some ({| mean_ := [1]; var_ := [4]; scale_ := [2] |},
                      {| n_components := 1; pca_mean_ := [0];
                         components_ := [[1]] |},
                      {| alpha_ := 1; coef_ := [2]; intercept_ := 3 |}) |} in
  let X := {| index := [10; 11]%Z;
              columns := [("nC"%string, [Num 5; Num 7])] |} in
  let X' := {| index := [12]%Z; columns := [("nC"%string, [Num 7])] |} in
  option_map fst (pipeline_predict model X) = Some [7; 9]%Q
  /\ option_map fst (pipeline_predict model X') = Some [9]%Q
  /\ exists v, nth_error [7; 9]%Q 1 = Some v /\ nth_error [9]%Q 0 = Some v.
Proof.
  intros model X X'.
  assert (H : pipeline_predict model X = Some ([7; 9]%Q, model))
    by reflexivity.
  assert (H' : pipeline_predict model X' = Some ([9]%Q, model))
    by reflexivity.
  split; [now rewrite H|]. split; [now rewrite H'|].
  assert (HX : frame_rows 2 X) by (split; [reflexivity | repeat constructor]).
  assert (HX' : frame_rows 1 X') by (split; [reflexivity | repeat constructor]).
  exact (@predictions_are_row_wise model X X' _ _ _ _ 2 1 1 0 [Num 7]
           HX HX' H H' eq_refl eq_refl).
Defined.

(** ** The metrics *)

Lemma Forall2_Qeq_combine (y p : list Q) :
  length y = length p ->
  (Forall2 Qeq y p <-> forall a, In a (combine y p) -> (fst a == snd a)%Q).
Proof.
  revert p. induction y as [|t y IH]; intros [|x p] Hlen;
    try discriminate.
  - split; [intros _ a [] | constructor].
  - simpl in Hlen. injection Hlen as Hlen. split.
    + intros H a Ha. inversion H; subst. destruct Ha as [<-|Ha]; [assumption|].
      now apply (IH p Hlen).
    + intros H. constructor.
      * apply (H (t, x)). now left.
      * apply (IH p Hlen). intros a Ha. apply H. now right.
Qed.

Lemma Qsq_zero x : (Qsq x == 0)%Q <-> (x == 0)%Q.
Proof.
  unfold Qsq. split; intros H; [nra | rewrite H; ring].
Qed.


(** A sum of terms that are zero only at zero, over the differences. *)
Lemma Qsum_differences_zero (f : Q -> Q) (y p : list Q) :
  (forall x, 0 <= f x)%Q -> (forall x, f x == 0 <-> x == 0)%Q ->
  length y = length p ->
  (0 <= Qsum (map (fun '(t, x) => f (t - x)) (combine y p)))%Q
  /\ ((Qsum (map (fun '(t, x) => f (t - x)) (combine y p)) == 0)%Q
      <-> Forall2 Qeq y p).
Proof.
  intros Hf Hz Hlen. rewrite (Forall2_Qeq_combine _ _ Hlen).
  induction (combine y p) as [|[t x] l [IH0 IH]]; simpl.
  - split; [apply Qle_refl|]. split; [intros _ a [] | reflexivity].
  - pose proof (Hf (t - x)%Q) as Hh. split; [lra|]. split.
    + intros H a [<-|Ha].
      * cbn [fst snd]. assert (H0 : (f (t - x) == 0)%Q) by lra.
        apply (proj1 (Hz _)) in H0. lra.
      * apply IH; [lra | exact Ha].
    + intros H.
      assert (H0 : (f (t - x) == 0)%Q).
      { apply Hz. pose proof (H (t, x) (or_introl eq_refl)) as E.
        cbn [fst snd] in E. lra. }
      assert (H1 : (Qsum (map (fun '(t0, x0) => f (t0 - x0)) l) == 0)%Q).
      { apply IH. intros a Ha. apply H. now right. }
      rewrite H0, H1. ring.
Qed.

Lemma r2_score_inv y_true y_pred r :
  r2_score y_true y_pred = Some r ->
  length y_true = length y_pred
  /\ (1 <= length y_pred)%nat
  /\ ((length y_pred < 2)%nat /\ r = FNaN
      \/ (2 <= length y_pred)%nat
         /\ let numerator :=
              Qsum (map (fun '(t, p) => Qsq (t - p)) (combine y_true y_pred)) in
            let denominator :=
              Qsum (map (fun t => Qsq (t - mean y_true)) y_true) in
            (~ (denominator == 0)%Q
             /\ r = Finite (1 - numerator / denominator)
             \/ (denominator == 0)%Q /\ ~ (numerator == 0)%Q /\ r = Finite 0
             \/ (denominator == 0)%Q /\ (numerator == 0)%Q /\ r = Finite 1)).
Proof.
  unfold r2_score.
  destruct (Nat.eqb_spec (length y_true) (length y_pred)) as [Hlen|];
    [|discriminate]. simpl.
  destruct (Nat.eqb_spec (length y_true) 0) as [|Hpos]; [discriminate|].
  destruct (Nat.ltb_spec (length y_pred) 2) as [Hlt|Hge].
  - intros H. injection H as <-. split; [exact Hlen|]. split; [lia | auto].
  - intros H. split; [exact Hlen|]. split; [lia|].
    right. split; [exact Hge|]. cbv zeta.
    destruct (Qeq_bool (Qsum (map (fun t => Qsq (t - mean y_true)) y_true)) 0)
      eqn:Ed; simpl in H.
    + apply Qeq_bool_iff in Ed.
      destruct (Qeq_bool _ 0) eqn:En in H; simpl in H; injection H as <-.
      * apply Qeq_bool_iff in En. auto.
      * apply Qeq_bool_neq in En. auto.
    + apply Qeq_bool_neq in Ed. injection H as <-. auto.
Qed.

(** The score of an estimate over two rows or more is a number. *)
Lemma r2_score_returns y_true y_pred :
  length y_true = length y_pred -> (2 <= length y_pred)%nat ->
  exists q, r2_score y_true y_pred = Some (Finite q).
Proof.
  intros Hlen Hge. unfold r2_score.
  rewrite Hlen, Nat.eqb_refl. simpl.
  destruct (Nat.eqb_spec (length y_pred) 0) as [|_]; [lia|].
  destruct (Nat.ltb_spec (length y_pred) 2) as [|_]; [lia|].
  destruct (negb _); [eauto|]. destruct (negb _); eauto.
Qed.

(** X24.  A score that is a number is at most 1, and an estimate that
    equals the reference in every row, two rows at least, scores 1. *)
Theorem r2_score_at_most_one (y_true y_pred : list Q) :
  (forall q, r2_score y_true y_pred = Some (Finite q) -> (q <= 1)%Q)
  /\ ((2 <= length y_true)%nat /\ Forall2 Qeq y_true y_pred ->
      exists q, r2_score y_true y_pred = Some (Finite q) /\ (q == 1)%Q).
Proof.
  assert (Hone : forall q,
             r2_score y_true y_pred = Some (Finite q) ->
             (q <= 1)%Q /\ (Forall2 Qeq y_true y_pred -> (q == 1)%Q)).
  { intros q H. apply r2_score_inv in H.
    destruct H as [Hlen [_ [[_ H]|[_ H]]]]; [discriminate|]. cbv zeta in H.
    destruct (Qsum_differences_zero Qsq y_true y_pred Qsq_nonneg Qsq_zero
                Hlen) as [Hn0 Hnz].
    set (num := Qsum (map (fun '(t, p) => Qsq (t - p))
                          (combine y_true y_pred))) in *.
    set (den := Qsum (map (fun t => Qsq (t - mean y_true)) y_true)) in *.
    assert (Hd0 : (0 <= den)%Q).
    { apply Qsum_nonneg, Forall_forall. intros x Hx.
      apply in_map_iff in Hx. destruct Hx as [t [<- _]]. apply Qsq_nonneg. }
    rewrite <- Hnz.
    destruct H as [[Hd H]|[[Hd [Hn H]]|[Hd [Hn H]]]]; injection H as ->.
    - assert (Hdp : (0 < den)%Q) by lra.
      assert (Hq : (0 <= num / den)%Q).
      { apply Qle_shift_div_l; [exact Hdp | lra]. }
      split; [lra|]. intros E. rewrite E. unfold Qdiv. ring.
    - split; [lra | contradiction].
    - split; [lra | reflexivity]. }
  split.
  - intros q H. exact (proj1 (Hone q H)).
  - intros [Hlen Hall].
    pose proof (Forall2_length Hall) as Hl.
    destruct (@r2_score_returns y_true y_pred Hl ltac:(lia)) as [q Hq].
    exists q. split; [exact Hq|]. exact (proj2 (Hone q Hq) Hall).
Qed.


